(** * railroad.js: the node builders and the layout pass, embedded in Rocq

    The embedding follows [src/railroad.js] function by function.

    - JavaScript values that reach the library are modelled by [value]:
      strings, objects that carry a string [op] (the "railroad nodes" of
      [toNode]), and everything else.
    - [throw] is modelled by the [result] monad.
    - Numbers are integers ([Z]); the models are exact as long as the
      quantities stay below 2^53, where double arithmetic on integers is
      exact.  The operator [>>] works on 32-bit integers and its
      wrap-around is written out in [ToInt32].
    - The DOM is modelled by the tree of elements that [appendToDOM]
      creates; what the browser measures for a leaf is a parameter. *)

From Stdlib Require Import ZArith Lia.
From stdpp Require Import base decidable option list gmap strings.

Set Warnings "-register-all,-clear-no-such-hyp".

Local Open Scope string_scope.
Local Open Scope list_scope.
Local Open Scope Z_scope.

(** ** Values *)

(** A JavaScript value as the library can tell them apart.  An object whose
    [op] is a string is a railroad node; the properties [content] and
    [children] may each be present or absent ([None] reads as [undefined]).
    [VOther] stands for the values on which [toNode] throws: a number, a
    boolean, a function, or an object whose [op] is not a string. *)
Inductive value : Type :=
| VStr (s : string)
| VObj (op : string) (content : option string) (children : option (list value))
| VOther.

(** The four object literals the builders create. *)
Abbreviation Leaf content := (VObj "html" (Some content) None).
Abbreviation Choice options := (VObj "|" None (Some options)).
Abbreviation Repeat children := (VObj "+" None (Some children)).
Abbreviation Sequence children := (VObj "." None (Some children)).

(** ** Exceptions *)

Inductive exn : Type :=
| TypeError            (* raised by the engine itself *)
| Error (arg : value). (* [throw new Error(arg)] *)

Inductive result (A : Type) : Type :=
| OK (a : A)
| Throw (e : exn).
Arguments OK {A} a.
Arguments Throw {A} e.

(** Sequencing stops at the first exception; [x ← r; k] is stdpp's
    notation for [mbind]. *)
#[global] Instance result_bind : MBind result := λ A B k r,
  match r with
  | OK a => k a
  | Throw e => Throw e
  end.

(** A [for] loop that threads a state through the elements of an array. *)
Definition foldM {A S} (f : A → S → result S) : list A → S → result S :=
  fix go l s :=
    match l with
    | [] => OK s
    | a :: l' => match f a s with OK s' => go l' s' | Throw e => Throw e end
    end.

(** A [for] loop that fills an array with one result per element. *)
Definition mapM {A B} (f : A → result B) : list A → result (list B) :=
  fix go l :=
    match l with
    | [] => OK []
    | a :: l' =>
        match f a with
        | OK b => match go l' with OK bs => OK (b :: bs) | Throw e => Throw e end
        | Throw e => Throw e
        end
    end.

(** ** The builders *)

(** [toNode(content)] *)
Definition toNode (content : value) : result value :=
  match content with
  | VStr s => OK (Leaf s)
  | VObj _ _ _ => OK content
  | VOther => Throw (Error content)
  end.

(** [ToString] of what the property [content] reads as: an absent
    [content] reads as [undefined], whose string is "undefined".  It gives
    the property key in [alreadySeen[child.content]] and the markup stored
    by [div.innerHTML = node.content]. *)
Definition ToString (content : option string) : string :=
  match content with
  | Some s => s
  | None => "undefined"
  end.

(** The state of one call of [or]: the array [options] and the keys that
    have been stored in the object [alreadySeen]. *)
Record or_state : Type := OrState {
  options : list value;
  alreadySeen : gset string
}.

Definition push_option (v : value) (st : or_state) : or_state :=
  OrState (options st ++ [v]) (alreadySeen st).

(** [addOption(child)], local to [or].  The [switch] is on [child.op], which
    is no string for a string and for [VOther], so both take the [default]
    branch.  In the ['html'] branch the assignment
    [alreadySeen[key] = alreadySeen] is an ordinary property write, except
    for the key "__proto__": that one names the prototype accessor, whose
    read is never [alreadySeen] itself and whose write of the object to its
    own prototype raises a [TypeError] (cyclic prototype chain). *)
Fixpoint addOption (child : value) (st : or_state) {struct child} : result or_state :=
  match child with
  | VObj op content children =>
      if String.eqb op "|" then
        match children with
        | Some cs => foldM addOption cs st
        | None => Throw TypeError
        end
      else if String.eqb op "html" then
        let key := ToString content in
        if decide (key ∈ alreadySeen st) then OK st
        else if String.eqb key "__proto__" then Throw TypeError
        else OK (OrState (options st ++ [child]) ({[key]} ∪ alreadySeen st))
      else
        n ← toNode child; OK (push_option n st)
  | _ => n ← toNode child; OK (push_option n st)
  end.

(** The tail of [or] and of [each]: a single element is returned itself. *)
Definition collapse (op : string) (items : list value) : value :=
  match items with
  | [item] => item
  | _ => VObj op None (Some items)
  end.

(** [or(var_args)] *)
Definition or (arguments : list value) : result value :=
  st ← foldM addOption arguments (OrState [] ∅);
  OK (collapse "|" (options st)).

(** [maybe(child)] *)
Definition maybe (child : value) : result value :=
  a ← toNode (VStr "▶");
  b ← toNode child;
  or [a; b].

(** [many(child)] *)
Definition many (child : value) : value :=
  VObj "+" None (Some [child]).

(** [any(child)] *)
Definition any (child : value) : result value :=
  maybe (many child).

(** [addItem(item)], local to [each]; the state is the array [items]. *)
Fixpoint addItem (item : value) (items : list value) {struct item} : result (list value) :=
  match item with
  | VObj op _ children =>
      if String.eqb op "." then
        match children with
        | Some cs => foldM addItem cs items
        | None => Throw TypeError
        end
      else
        n ← toNode item; OK (items ++ [n])
  | _ => n ← toNode item; OK (items ++ [n])
  end.

(** [each(var_args)] *)
Definition each (arguments : list value) : result value :=
  items ← foldM addItem arguments [];
  OK (collapse "." items).

(** ** The layout pass *)

(** Widths and heights are added as integers.  The source adds them as
    doubles, which is the same as long as the sums stay below 2^53; the
    statements about sizes and positions are made for boxes below 2^31,
    where [>>] does not wrap either. *)

(** [a >> b]: the left operand is taken modulo 2^32 into the signed 32-bit
    range, the shift count modulo 32. *)
Definition ToInt32 (x : Z) : Z :=
  let m := x mod 2 ^ 32 in
  if 2 ^ 31 <=? m then m - 2 ^ 32 else m.

Definition shr (a b : Z) : Z := Z.shiftr (ToInt32 a) (b mod 32).

(** What a [SPAN] created by the layout pass looks like. *)
Inductive decoration : Type :=
| Rule               (* 1px high, black background: a straight line *)
| TopRightCorner     (* borderTop, borderRight, borderTopRightRadius 6px *)
| BottomRightCorner  (* borderBottom, borderRight, borderBottomRightRadius 6px *)
| BottomLeftCorner   (* borderBottom, borderLeft, borderBottomLeftRadius 6px *)
| TopLeftCorner      (* borderTop, borderLeft, borderTopLeftRadius 6px *)
| LoopTop            (* borderLeft, borderRight, borderTop, both top radii 6px *)
| LoopLeft           (* borderLeft, borderBottom, borderBottomLeftRadius 6px *)
| LoopRight          (* borderRight, borderBottom, borderBottomRightRadius 6px *)
| Arrowhead (text : string).

(** An absolutely positioned [SPAN]: [style.left], [style.top],
    [style.width] and [style.height] in pixels. *)
Record span : Type := Span {
  span_left : Z;
  span_top : Z;
  span_width : Z;
  span_height : Z;
  span_decoration : decoration
}.

(** The [DIV] that [appendToDOM] creates for a node.  A leaf holds its markup
    and whether the 8px override was applied to it.  A composite holds the
    [DIV]s of its children in order, each with the [(left, top)] that was
    assigned to its style if any, then the [SPAN]s in the order they were
    appended, and its own [style.width] and [style.height]. *)
Inductive element : Type :=
| LeafDiv (innerHTML : string) (small : bool)
| BoxDiv (kids : list (element * option (Z * Z))) (spans : list span)
         (width height : Z).

(** A property that is read may be [undefined]. *)
Inductive jsval : Type :=
| Undefined
| Num (n : Z).

(** The output object [opt_stats]. *)
Record stats : Type := Stats {
  stats_width : jsval;
  stats_height : jsval
}.

Section Layout.

(** What the browser reports as [(offsetWidth, offsetHeight)] for a leaf
    [DIV] with the given markup and style. *)
Variable measure : string → bool → N * N.

(** A composite [DIV] is absolutely positioned with an explicit width and
    height and neither border nor padding: its offsets are its style's. *)
Definition offsetWidth (e : element) : Z :=
  match e with
  | LeafDiv html small => Z.of_N (fst (measure html small))
  | BoxDiv _ _ width _ => width
  end.

Definition offsetHeight (e : element) : Z :=
  match e with
  | LeafDiv html small => Z.of_N (snd (measure html small))
  | BoxDiv _ _ _ height => height
  end.

(** Reading a property of a [DIV] by name, for the names the source reads:
    a name that no element defines reads as [undefined]. *)
Definition get_prop (div : element) (name : string) : jsval :=
  if String.eqb name "offsetWidth" then Num (offsetWidth div)
  else if String.eqb name "offsetHeight" then Num (offsetHeight div)
  else Undefined.

(** [rightArrow(x, width, y, height, junctionX)]: the spans it appends. *)
Definition rightArrow (x width y height : Z) (junctionX : option Z) : list span :=
  if height =? 0 then
    [Span x y width 1 Rule]
  else
    let junctionX :=
      match junctionX with
      | None => x + shr width 1
      | Some j => j
      end in
    let halfHeight := shr (Z.abs height + 1) 1 in
    let left :=
      if height >? 0
      then Span x y (junctionX - x) halfHeight TopRightCorner
      else Span x (y - halfHeight) (junctionX - x) halfHeight BottomRightCorner in
    let right :=
      if height >? 0
      then Span junctionX (y + halfHeight) (x + width - junctionX)
                (height - halfHeight) BottomLeftCorner
      else Span junctionX (y + height) (x + width - junctionX)
                halfHeight TopLeftCorner in
    [left; right].

(** *** case '|' *)

(** First loop: the width. *)
Definition or_width (children : list element) : Z :=
  fold_left (λ width child, Z.max width (32 + offsetWidth child)) children 0.

(** What the second loop records for one child. *)
Record row : Type := Row {
  row_top : Z;
  leftX : Z;
  rightX : Z;
  childYCenter : Z
}.

(** Second loop, from index [i] on with the running [height]: the rows and
    the final height. *)
Fixpoint or_rows (width : Z) (i : nat) (children : list element) (height : Z)
    : list row * Z :=
  match children with
  | [] => ([], height)
  | child :: rest =>
      let height := if (i =? 0)%nat then height else height + 16 in
      let childHeight := offsetHeight child in
      let childWidth := offsetWidth child in
      let leftX := shr (width - childWidth) 1 in
      let rightX := leftX + childWidth in
      let r := Row height leftX rightX (height + shr childHeight 1) in
      let '(rows, height) := or_rows width (S i) rest (height + childHeight) in
      (r :: rows, height)
  end.

(** Third loop, one iteration: the entry and the exit connector of a row. *)
Definition or_arrows (width centerY : Z) (r : row) : list span :=
  rightArrow 0 (leftX r) centerY (childYCenter r - centerY) (Some 8)
  ++ rightArrow (rightX r) (width - rightX r) (childYCenter r)
       (centerY - childYCenter r) (Some (width - 8)).

Definition layout_or (children : list element) : element :=
  let width := or_width children in
  let '(rows, height) := or_rows width 0 children 0 in
  let centerY := shr height 1 in
  BoxDiv (zip_with (λ child r, (child, Some (leftX r, row_top r))) children rows)
         (flat_map (or_arrows width centerY) rows)
         width height.

(** *** case '+' *)

Definition layout_many (children : list element) : result element :=
  match children with
  | [] => Throw TypeError (* [children[0]] is [undefined] *)
  | child :: others =>
      let width := offsetWidth child + 32 in
      let height := offsetHeight child + 16 in
      let centerY := shr height 1 in
      OK (BoxDiv ((child, Some (16, 8)) :: map (λ c, (c, None)) others)
            ([Span 8 0 (width - 16) (centerY - 8) LoopTop;
              Span 8 (centerY - 12) 8 12 LoopLeft;
              Span (width - 16) (centerY - 12) 8 12 LoopRight;
              Span 0 (-5) width 8 (Arrowhead "◀")]
             ++ rightArrow 0 16 centerY 0 None
             ++ rightArrow (width - 16) 16 centerY 0 None)
            width height)
  end.

(** *** case '.' *)

(** First loop: the height. *)
Definition each_height (children : list element) : Z :=
  fold_left (λ height child, Z.max height (offsetHeight child)) children 0.

(** Second loop with the running [width]: the positions, the spans and the
    final width. *)
Fixpoint each_cols (height : Z) (children : list element) (width : Z)
    : list (Z * Z) * list span * Z :=
  match children with
  | [] => ([], [], width)
  | child :: rest =>
      let left := width in
      let width := width + offsetWidth child in
      let arrow := rightArrow width 16 (shr height 1) 0 None in
      let width := width + 16 in
      let top := shr (height - offsetHeight child) 1 in
      let '(cols, arrows, width) := each_cols height rest width in
      ((left, top) :: cols, arrow ++ arrows, width)
  end.

Definition layout_each (children : list element) : element :=
  let height := each_height children in
  let first := rightArrow 0 16 (shr height 1) 0 None in
  let '(cols, arrows, width) := each_cols height children 16 in
  BoxDiv (zip_with (λ child p, (child, Some p)) children cols)
         (first ++ arrows) width height.

(** *** appendToDOM *)

(** The [switch (node.op)] after the children have been attached. *)
Definition layout (op : string) (children : list element) : result element :=
  if String.eqb op "|" then OK (layout_or children)
  else if String.eqb op "+" then layout_many children
  else if String.eqb op "." then OK (layout_each children)
  else Throw (Error (VStr op)).

(** The branch [node.op === 'html']. *)
Definition appendLeaf (content : option string) (opt_stats : option stats)
    : element * option stats :=
  let div := LeafDiv (ToString content) (bool_decide (content = Some "▶")) in
  (div,
   match opt_stats with
   | Some _ => Some (Stats (get_prop div "offesetWidth") (get_prop div "offesetHeight"))
   | None => None
   end).

(** [appendToDOM(node, parent, opt_stats)].  The created [DIV] is returned
    and is also the last child of [parent]; the object [opt_stats], when
    given, is returned as it is after the call.  The first step,
    [node = toNode(node)], is the case distinction on [node]: a string is
    the leaf that [toNode] makes of it (see [appendToDOM_toNode]). *)
Fixpoint appendToDOM (node : value) (opt_stats : option stats) {struct node}
    : result (element * option stats) :=
  match node with
  | VOther => Throw (Error VOther)
  | VStr s => OK (appendLeaf (Some s) opt_stats)
  | VObj op content children =>
      if String.eqb op "html" then OK (appendLeaf content opt_stats)
      else
        match children with
        | None => Throw TypeError (* [node.children.length] *)
        | Some cs =>
            children ← mapM (λ c, r ← appendToDOM c None; OK (fst r)) cs;
            div ← layout op children;
            OK (div,
                match opt_stats with
                | Some _ => Some (Stats (Num (offsetWidth div)) (Num (offsetHeight div)))
                | None => None
                end)
        end
  end.

End Layout.

(** ** Predicates used by the statements *)

(** The operator of a node. *)
Definition has_op (op : string) (v : value) : bool :=
  match v with
  | VObj op' _ _ => String.eqb op' op
  | _ => false
  end.

(** Every Sequence and every Choice in the tree under [v] has a number of
    children accepted by [len_ok] and no direct child of its own kind.  The
    tree is what the layout pass walks: the [children] of the nodes that are
    not leaves. *)
Fixpoint shaped (len_ok : nat → bool) (v : value) : bool :=
  match v with
  | VObj op _ (Some cs) =>
      if String.eqb op "html" then true
      else
        forallb (shaped len_ok) cs
        && (if String.eqb op "." || String.eqb op "|"
            then len_ok (length cs) && forallb (λ c, negb (has_op op c)) cs
            else true)
  | _ => true
  end.

(** The invariant of the data model: at least two children. *)
Definition canonical : value → bool := shaped (λ n, 2 <=? n)%nat.

(** The invariant the builders keep: never exactly one child. *)
Definition collapsed : value → bool := shaped (λ n, negb (n =? 1)%nat).

(** The values a caller has when it uses the builders alone: texts, and what
    the builders return when they are given such values. *)
Inductive api_value : value → Prop :=
| api_text s : api_value (VStr s)
| api_or arguments v :
    Forall api_value arguments → or arguments = OK v → api_value v
| api_each arguments v :
    Forall api_value arguments → each arguments = OK v → api_value v
| api_maybe child v : api_value child → maybe child = OK v → api_value v
| api_many child : api_value child → api_value (many child)
| api_any child v : api_value child → any child = OK v → api_value v.

(** [v] is a node, not a text. *)
Definition is_node (v : value) : bool :=
  match v with
  | VObj _ _ _ => true
  | _ => false
  end.

(** Every Choice in the tree under [v] holds nodes, no text. *)
Fixpoint choices_hold_nodes (v : value) : bool :=
  match v with
  | VObj op _ (Some cs) =>
      if String.eqb op "html" then true
      else
        forallb choices_hold_nodes cs
        && (if String.eqb op "|" then forallb is_node cs else true)
  | _ => true
  end.

(** [v] is a node, and where [addOption] splices it, it finds nodes again. *)
Fixpoint splices_nodes (v : value) : bool :=
  match v with
  | VObj op _ children =>
      if String.eqb op "|" then
        match children with
        | Some cs => forallb splices_nodes cs
        | None => true
        end
      else true
  | _ => false
  end.

(** The operators that [appendToDOM] knows. *)
Definition known_op (op : string) : bool :=
  String.eqb op "html" || String.eqb op "|" || String.eqb op "+" || String.eqb op ".".

(** The tree under [v] holds a node whose operator is not known. *)
Fixpoint has_unknown_op (v : value) : bool :=
  match v with
  | VObj op _ children =>
      if String.eqb op "html" then false
      else
        negb (known_op op)
        || match children with
           | Some cs => existsb has_unknown_op cs
           | None => false
           end
  | _ => false
  end.

(** Apart from the operators, the tree under [v] is in order: it is made of
    texts and nodes, every node that is not a leaf has its array of
    children, and a repetition has a child. *)
Fixpoint well_shaped (v : value) : bool :=
  match v with
  | VStr _ => true
  | VOther => false
  | VObj op _ children =>
      if String.eqb op "html" then true
      else
        match children with
        | None => false
        | Some cs =>
            forallb well_shaped cs
            && (if String.eqb op "+" then negb (bool_decide (cs = [])) else true)
        end
  end.

(** Sum of a list of integers. *)
Definition sum_list (l : list Z) : Z := foldr Z.add 0 l.

(** [m] is the greatest element of [l]. *)
Definition is_max (m : Z) (l : list Z) : Prop :=
  Forall (λ x, x ≤ m) l ∧ m ∈ l.

(** The child [DIV]s of a node, as the loop over [node.children] makes them. *)
Definition attach (measure : string → bool → N * N) (cs : list value)
    : result (list element) :=
  mapM (λ c, r ← appendToDOM measure c None; OK (fst r)) cs.

(** Where the options of a Choice are expected, given the [DIV]s [kids] of
    the options and the width [W] of the Choice: option [i] is below the
    options before it, each followed by a gap of 16; it is centred
    horizontally; its vertical centre is half its height below its top. *)
Definition option_top (measure : string → bool → N * N)
    (kids : list element) (i : nat) : Z :=
  sum_list ((λ k, offsetHeight measure k + 16) <$> take i kids).

Definition option_left (measure : string → bool → N * N)
    (W : Z) (k : element) : Z :=
  (W - offsetWidth measure k) `div` 2.

Definition option_center (measure : string → bool → N * N)
    (kids : list element) (i : nat) (k : element) : Z :=
  option_top measure kids i + offsetHeight measure k `div` 2.

(** Entry and exit connector of option [i], from the expected positions. *)
Definition connectors (measure : string → bool → N * N)
    (kids : list element) (W centerY : Z) (i : nat) (k : element) : list span :=
  rightArrow 0 (option_left measure W k) centerY
    (option_center measure kids i k - centerY) (Some 8)
  ++ rightArrow (option_left measure W k + offsetWidth measure k)
       (W - (option_left measure W k + offsetWidth measure k))
       (option_center measure kids i k)
       (centerY - option_center measure kids i k) (Some (W - 8)).

(** The sizes a [DIV] reports are not negative. *)
Definition sized (measure : string → bool → N * N) (e : element) : Prop :=
  0 ≤ offsetWidth measure e ∧ 0 ≤ offsetHeight measure e.

(** What [appendToDOM] does with a tree that is in order apart from its
    operators. *)
Definition outcome (measure : string → bool → N * N)
    (t : value) (opt_stats : option stats) : Prop :=
  if has_unknown_op t
  then ∃ op, known_op op = false
             ∧ appendToDOM measure t opt_stats = Throw (Error (VStr op))
  else ∃ r, appendToDOM measure t opt_stats = OK r.

(** An object whose operator is not ['|']. *)
Definition not_alt (v : value) : Prop :=
  ∃ op content children, v = VObj op content children ∧ op ≠ "|".

(** The keys of the leaves among the options. *)
Definition leaf_keys (opts : list value) : list string :=
  omap (λ v, match v with
             | VObj op content _ =>
                 if String.eqb op "html" then Some (ToString content) else None
             | _ => None
             end) opts.

(** What holds of the state of [or] when only nodes have been added:
    [alreadySeen] has exactly the keys of the leaves in [options], and no
    two of these leaves have the same key. *)
Record exact (st : or_state) : Prop := Exact {
  exact_not_alt : Forall not_alt (options st);
  exact_NoDup : NoDup (leaf_keys (options st));
  exact_proto : "__proto__" ∉ leaf_keys (options st);
  exact_seen : alreadySeen st = list_to_set (leaf_keys (options st))
}.

(** The elements that a call of [each] collects for the argument [v], read
    as a list: a Sequence stands for the elements of its children, a text
    for its leaf, any other node for itself. *)
Fixpoint seq_items (v : value) : list value :=
  match v with
  | VStr s => [Leaf s]
  | VObj op _ children =>
      if String.eqb op "." then
        match children with
        | Some cs => flat_map seq_items cs
        | None => []
        end
      else [v]
  | VOther => []
  end.

(** The arguments that [each] accepts: texts and nodes, where every Sequence
    that is reached has its array of children. *)
Fixpoint seq_ok (v : value) : bool :=
  match v with
  | VStr _ => true
  | VObj op _ children =>
      if String.eqb op "." then
        match children with
        | Some cs => forallb seq_ok cs
        | None => false
        end
      else true
  | VOther => false
  end.

(** The candidates for the options of a call of [or] for the argument [v]:
    a Choice stands for the candidates of its children, a text for its leaf,
    any other node for itself. *)
Fixpoint alt_items (v : value) : list value :=
  match v with
  | VStr s => [Leaf s]
  | VObj op _ children =>
      if String.eqb op "|" then
        match children with
        | Some cs => flat_map alt_items cs
        | None => []
        end
      else [v]
  | VOther => []
  end.

(** Where the children of a Sequence are expected, given their [DIV]s
    [kids] and the height [H] of the Sequence: child [i] is to the right of
    a first gap of 16 and of the children before it, each followed by a gap
    of 16; it is centred vertically. *)
Definition item_left (measure : string → bool → N * N)
    (kids : list element) (i : nat) : Z :=
  16 + sum_list ((λ k, offsetWidth measure k + 16) <$> take i kids).

Definition item_top (measure : string → bool → N * N)
    (H : Z) (k : element) : Z :=
  (H - offsetHeight measure k) `div` 2.

(** The tree [v] with every text in it replaced by the leaf that [toNode]
    makes of it. *)
Fixpoint leafify (v : value) : value :=
  match v with
  | VStr s => Leaf s
  | VObj op content children =>
      VObj op content
        match children with
        | Some cs => Some (map leafify cs)
        | None => None
        end
  | VOther => VOther
  end.

(** [v] is a leaf whose content is that of a leaf in [kept]. *)
Definition duplicate_leaf (kept : list value) (v : value) : bool :=
  match v with
  | VObj op content _ =>
      String.eqb op "html" && bool_decide (ToString content ∈ leaf_keys kept)
  | _ => false
  end.

(** The candidates [items] put behind [kept] one by one, in their order,
    but a leaf left out when a leaf with its content is there already: of
    the leaves with one content the first stays. *)
Definition keep_first (kept items : list value) : list value :=
  fold_left (λ kept v, if duplicate_leaf kept v then kept else kept ++ [v])
            items kept.

(** The nodes that [or] takes as arguments without throwing: nodes in
    which every Choice that is reached has its array of children, and in
    which no leaf that is reached has the content "__proto__". *)
Fixpoint or_accepts (v : value) : bool :=
  match v with
  | VObj op content children =>
      if String.eqb op "|" then
        match children with
        | Some cs => forallb or_accepts cs
        | None => false
        end
      else if String.eqb op "html" then
        negb (String.eqb (ToString content) "__proto__")
      else true
  | _ => false
  end.

(** A browser for the examples: the sizes it reports for a few markups. *)
Definition sample_measure (html : string) (small : bool) : N * N :=
  if String.eqb html "a" then (10, 5)%N
  else if String.eqb html "b" then (20, 8)%N
  else if String.eqb html "c" then (30, 6)%N
  else if String.eqb html "p" then (40, 10)%N
  else if String.eqb html "q" then (50, 20)%N
  else (12, if small then 8 else 18)%N.

(** ** The builders: results *)

(** Induction over [value] that reaches into the [children] array. *)
Lemma value_ind' (P : value → Prop)
    (Hstr : ∀ s, P (VStr s))
    (Hleaf : ∀ op content, P (VObj op content None))
    (Hobj : ∀ op content cs, Forall P cs → P (VObj op content (Some cs)))
    (Hother : P VOther) :
  ∀ v, P v.
Proof.
  fix IH 1. intros [s|op content [cs|]|].
  - apply Hstr.
  - apply Hobj. induction cs as [|c cs IHcs]; constructor; [apply IH | apply IHcs].
  - apply Hleaf.
  - apply Hother.
Qed.

(** C1.  For every pair of text arguments [s] and [t], equal or not,
    [or(s, t)] is a Choice of the two leaves in argument order: a text takes
    the [default] branch of [addOption], which never consults
    [alreadySeen].  In particular [or('x','x')] keeps both leaves. *)
Theorem or_two_texts (s t : string) :
  or [VStr s; VStr t] = OK (Choice [Leaf s; Leaf t]).
Proof. reflexivity. Qed.

(** One step of [addOption] on a leaf. *)
Lemma addOption_html content children st :
  addOption (VObj "html" content children) st =
  if decide (ToString content ∈ alreadySeen st) then OK st
  else if String.eqb (ToString content) "__proto__" then Throw TypeError
  else OK (OrState (options st ++ [VObj "html" content children])
                   ({[ToString content]} ∪ alreadySeen st)).
Proof. reflexivity. Qed.

(** Two equal leaves that are already nodes are merged. *)
Lemma or_two_equal_leaves (s : string) :
  s ≠ "__proto__" → or [Leaf s; Leaf s] = OK (Leaf s).
Proof.
  intros Hs. unfold or. cbn [foldM]. rewrite addOption_html. cbn [alreadySeen ToString].
  rewrite decide_False by set_solver.
  destruct (String.eqb_spec s "__proto__") as [->|_]; [done|].
  rewrite addOption_html. cbn [alreadySeen ToString].
  rewrite decide_True by set_solver. reflexivity.
Qed.

(** C2, as the code has it.  For every [x], [many(x)] is a Repeat whose
    single child is [x] itself; a node is its own [toNode], and the layout
    pass converts the stored child when it reaches it. *)
Theorem many_stores_argument :
  (∀ x, many x = Repeat [x])
  ∧ (∀ op content children,
       toNode (VObj op content children) = OK (VObj op content children))
  ∧ (∀ measure x opt_stats,
       appendToDOM measure (many x) opt_stats
       = n ← toNode x; appendToDOM measure (Repeat [n]) opt_stats).
Proof.
  split; [reflexivity|]. split; [reflexivity|].
  intros measure [s| |] opt_stats; reflexivity.
Qed.

(** C2 fails for a text: the stored child of [many('x')] is the text, not
    the leaf that [toNode] makes of it. *)
Lemma many_text_not_wrapped :
  ¬ (∃ n, toNode (VStr "x") = OK n ∧ many (VStr "x") = Repeat [n]).
Proof.
  intros (n & Hn & Hm). injection Hn as <-.
  unfold many in Hm. discriminate Hm.
Qed.

(** C10.  [maybe] of the bypass marker, given as a text or as a leaf, is the
    single bypass leaf; for every other text that can be a leaf of a Choice
    it is the Choice of the bypass leaf and the leaf of the text. *)
Theorem maybe_bypass_marker :
  maybe (VStr "▶") = OK (Leaf "▶")
  ∧ (∀ children, maybe (VObj "html" (Some "▶") children) = OK (Leaf "▶"))
  ∧ (∀ s, s ≠ "▶" → s ≠ "__proto__" →
       maybe (VStr s) = OK (Choice [Leaf "▶"; Leaf s])).
Proof.
  split; [vm_compute; reflexivity|]. split.
  - intros children. unfold maybe, or, toNode, mbind, result_bind. cbn [foldM].
    rewrite !addOption_html. cbn [alreadySeen ToString].
    rewrite decide_False by set_solver. cbn [String.eqb Ascii.eqb Bool.eqb].
    rewrite addOption_html. cbn [alreadySeen ToString].
    rewrite decide_True by set_solver. reflexivity.
  - intros s Hs Hp. unfold maybe, or, toNode, mbind, result_bind. cbn [foldM].
    rewrite !addOption_html. cbn [alreadySeen ToString].
    rewrite decide_False by set_solver. cbn [String.eqb Ascii.eqb Bool.eqb].
    rewrite addOption_html. cbn [alreadySeen ToString].
    rewrite decide_False by set_solver.
    destruct (String.eqb_spec s "__proto__") as [->|_]; [done|]. reflexivity.
Qed.

Lemma maybe_bypass_marker_witness :
  maybe (VStr "x") = OK (Choice [Leaf "▶"; Leaf "x"]).
Proof.
  apply (proj2 (proj2 maybe_bypass_marker) "x"); [discriminate | discriminate].
Defined.

(** ** The builders: flattening *)

Lemma foldM_app {A S} (f : A → S → result S) l1 l2 s :
  foldM f (l1 ++ l2) s = s' ← foldM f l1 s; foldM f l2 s'.
Proof.
  revert s. induction l1 as [|a l1 IH]; intros s; cbn; [reflexivity|].
  destruct (f a s); cbn; [apply IH | reflexivity].
Qed.

(** A property of the state that every successful step keeps is kept by the
    loop. *)
Lemma foldM_invariant {A S} (f : A → S → result S) (I : S → Prop) l :
  Forall (λ a, ∀ s s', I s → f a s = OK s' → I s') l →
  ∀ s s', I s → foldM f l s = OK s' → I s'.
Proof.
  induction 1 as [|a l Ha _ IH]; intros s s' Hs Hrun; cbn in Hrun.
  - congruence.
  - destruct (f a s) as [s1|] eqn:Hstep; [|discriminate]. eauto.
Qed.

Lemma leaf_keys_app l1 l2 : leaf_keys (l1 ++ l2) = leaf_keys l1 ++ leaf_keys l2.
Proof. apply omap_app. Qed.

Lemma addOption_other op content children st :
  op ≠ "|" → op ≠ "html" →
  addOption (VObj op content children) st
  = OK (push_option (VObj op content children) st).
Proof.
  intros H1 H2. cbn.
  destruct (String.eqb_spec op "|"); [done|].
  destruct (String.eqb_spec op "html"); [done|]. reflexivity.
Qed.

Lemma addOption_alt content cs st :
  addOption (VObj "|" content (Some cs)) st = foldM addOption cs st.
Proof. reflexivity. Qed.

Lemma forallb_Forall {A} (f : A → bool) (l : list A) :
  forallb f l = true ↔ Forall (λ x, f x = true) l.
Proof.
  rewrite forallb_forall, Forall_forall.
  split; intros H x Hx; apply H; by apply list_elem_of_In.
Qed.

(** Adding a node that is not spliced keeps the state exact. *)
Lemma addOption_exact_flat op content children st st' :
  op ≠ "|" → exact st →
  addOption (VObj op content children) st = OK st' → exact st'.
Proof.
  intros Hop [Ha Hd Hp Hs] Hrun.
  destruct (String.eqb_spec op "html") as [->|Hh].
  - rewrite addOption_html in Hrun.
    case_decide as Hin; [by injection Hrun as <-|].
    destruct (String.eqb_spec (ToString content) "__proto__") as [|Hk]; [discriminate|].
    injection Hrun as <-. rewrite Hs in Hin.
    split; cbn [options alreadySeen]; rewrite ?leaf_keys_app; cbn.
    + apply Forall_app; split; [done|]. repeat constructor. by eexists _, _, _.
    + apply NoDup_app; split_and!; [done | | apply NoDup_singleton].
      intros k Hk1 ->%list_elem_of_singleton. apply Hin. by apply elem_of_list_to_set.
    + rewrite elem_of_app, list_elem_of_singleton. naive_solver.
    + rewrite Hs, list_to_set_app_L. set_solver.
  - rewrite addOption_other in Hrun by done. injection Hrun as <-.
    assert (leaf_keys [VObj op content children] = []) as Hnil.
    { cbn. by destruct (String.eqb_spec op "html"). }
    split; cbn [options alreadySeen push_option];
      rewrite ?leaf_keys_app, ?Hnil, ?app_nil_r; try done.
    apply Forall_app; split; [done|]. repeat constructor. by eexists _, _, _.
Qed.

(** Adding a node keeps the state exact. *)
Lemma addOption_exact child :
  splices_nodes child = true →
  ∀ st st', exact st → addOption child st = OK st' → exact st'.
Proof.
  induction child as [s|op content|op content cs IH|] using value_ind';
    cbn [splices_nodes]; intros Hn st st' Hst Hrun; try discriminate.
  - destruct (String.eqb_spec op "|") as [->|Hop]; [discriminate Hrun|].
    by eapply addOption_exact_flat.
  - destruct (String.eqb_spec op "|") as [->|Hop];
      [|by eapply addOption_exact_flat].
    rewrite addOption_alt in Hrun. apply forallb_Forall in Hn.
    eapply (foldM_invariant addOption exact cs); [|exact Hst|exact Hrun].
    rewrite Forall_forall in IH, Hn. apply Forall_forall. intros c Hc.
    apply IH; [done|]. by apply Hn.
Qed.

(** Adding again the options of an exact state, in order, rebuilds it. *)
Lemma addOption_replay q : ∀ p,
  Forall not_alt q → NoDup (leaf_keys (p ++ q)) → "__proto__" ∉ leaf_keys q →
  foldM addOption q (OrState p (list_to_set (leaf_keys p)))
  = OK (OrState (p ++ q) (list_to_set (leaf_keys (p ++ q)))).
Proof.
  induction q as [|o q IH]; intros p Hq Hd Hp.
  - cbn. by rewrite app_nil_r.
  - apply Forall_cons in Hq as [(op & content & children & -> & Hop) Hq].
    replace (p ++ VObj op content children :: q)
      with ((p ++ [VObj op content children]) ++ q) in * by by rewrite <- app_assoc.
    cbn [foldM].
    destruct (String.eqb_spec op "html") as [->|Hh].
    + rewrite addOption_html. cbn [alreadySeen options].
      assert (ToString content ∉ leaf_keys p) as Hfresh.
      { pose proof Hd as Hd'. rewrite !leaf_keys_app in Hd'. cbn in Hd'.
        apply NoDup_app in Hd' as (Hd1 & _).
        apply NoDup_app in Hd1 as (_ & Hd1 & _).
        intros Hin. apply (Hd1 _ Hin). apply list_elem_of_here. }
      rewrite decide_False by by rewrite elem_of_list_to_set.
      destruct (String.eqb_spec (ToString content) "__proto__") as [Hk|_].
      { exfalso. apply Hp. cbn. rewrite Hk. apply list_elem_of_here. }
      replace ({[ToString content]} ∪ list_to_set (leaf_keys p) : gset string)
        with (list_to_set (C:=gset string) (leaf_keys (p ++ [VObj "html" content children]))).
      2:{ rewrite leaf_keys_app, list_to_set_app_L. cbn. set_solver. }
      apply IH; [done|done|].
      intros Hin. apply Hp. cbn. by apply list_elem_of_further.
    + rewrite addOption_other by done. unfold push_option. cbn [options alreadySeen].
      assert (leaf_keys [VObj op content children] = []) as Hnil.
      { cbn. by destruct (String.eqb_spec op "html"). }
      assert (leaf_keys (VObj op content children :: q) = leaf_keys q) as Hq'.
      { change (VObj op content children :: q) with ([VObj op content children] ++ q).
        by rewrite leaf_keys_app, Hnil. }
      replace (list_to_set (leaf_keys p) : gset string)
        with (list_to_set (C:=gset string) (leaf_keys (p ++ [VObj op content children]))).
      2:{ by rewrite leaf_keys_app, Hnil, app_nil_r. }
      apply IH; [done|done|by rewrite <- Hq'].
Qed.

Lemma exact_init : exact (OrState [] ∅).
Proof.
  split; cbn; [constructor | constructor | apply not_elem_of_nil | reflexivity].
Qed.

(** Adding what [or] returned for an exact state to the empty state gives
    that state again. *)
Lemma addOption_collapse st :
  exact st → addOption (collapse "|" (options st)) (OrState [] ∅) = OK st.
Proof.
  intros [Ha Hd Hp Hs].
  pose proof (addOption_replay (options st) [] Ha Hd Hp) as Hre.
  change ([] ++ options st) with (options st) in Hre.
  change (list_to_set (C:=gset string) (leaf_keys [])) with (∅ : gset string) in Hre.
  rewrite <- Hs in Hre.
  assert (OrState (options st) (alreadySeen st) = st) as Heta by by destruct st.
  rewrite Heta in Hre. clear Heta.
  destruct (options st) as [|o [|o' opts]] eqn:Hopts; cbn [collapse].
  - exact Hre.
  - cbn [foldM] in Hre. by destruct (addOption o _).
  - exact Hre.
Qed.

Lemma keep_first_app kept l1 l2 :
  keep_first kept (l1 ++ l2) = keep_first (keep_first kept l1) l2.
Proof. apply fold_left_app. Qed.

(** What [addOption] does with a node that it does not splice, in terms of
    [keep_first]. *)
Lemma addOption_keep_first_flat op content children opts :
  op ≠ "|" → "__proto__" ∉ leaf_keys opts →
  (addOption (VObj op content children) (OrState opts (list_to_set (leaf_keys opts)))
   = if or_accepts (VObj op content children)
     then OK (OrState (keep_first opts [VObj op content children])
                (list_to_set (leaf_keys (keep_first opts [VObj op content children]))))
     else Throw TypeError)
  ∧ (or_accepts (VObj op content children) = true →
     "__proto__" ∉ leaf_keys (keep_first opts [VObj op content children])).
Proof.
  intros Hop Hp. unfold keep_first. cbn [fold_left duplicate_leaf or_accepts].
  destruct (String.eqb_spec op "|") as [|_]; [done|].
  destruct (String.eqb_spec op "html") as [->|Hh]; cbn [andb].
  - rewrite addOption_html. cbn [alreadySeen options].
    destruct (decide (ToString content ∈ leaf_keys opts)) as [Hin|Hin].
    + rewrite decide_True by by apply elem_of_list_to_set.
      rewrite bool_decide_eq_true_2 by done.
      destruct (String.eqb_spec (ToString content) "__proto__") as [Hk|_];
        [by rewrite Hk in Hin|]. done.
    + rewrite decide_False by by rewrite elem_of_list_to_set.
      rewrite bool_decide_eq_false_2 by done.
      destruct (String.eqb_spec (ToString content) "__proto__") as [Hk|Hk];
        cbn [negb]; [done|]. split.
      * do 2 f_equal. rewrite leaf_keys_app, list_to_set_app_L. cbn. set_solver.
      * intros _. rewrite leaf_keys_app, elem_of_app. cbn.
        rewrite list_elem_of_singleton. naive_solver.
  - rewrite addOption_other by done. unfold push_option. cbn [alreadySeen options].
    assert (leaf_keys (opts ++ [VObj op content children]) = leaf_keys opts) as ->.
    { rewrite leaf_keys_app. cbn. destruct (String.eqb_spec op "html"); [done|].
      by rewrite app_nil_r. }
    done.
Qed.

Lemma foldM_addOption_keep_first cs :
  Forall (λ child, splices_nodes child = true →
    ∀ opts, "__proto__" ∉ leaf_keys opts →
      (addOption child (OrState opts (list_to_set (leaf_keys opts)))
       = if or_accepts child
         then OK (OrState (keep_first opts (alt_items child))
                    (list_to_set (leaf_keys (keep_first opts (alt_items child)))))
         else Throw TypeError)
      ∧ (or_accepts child = true →
         "__proto__" ∉ leaf_keys (keep_first opts (alt_items child)))) cs →
  Forall (λ child, splices_nodes child = true) cs →
  ∀ opts, "__proto__" ∉ leaf_keys opts →
    (foldM addOption cs (OrState opts (list_to_set (leaf_keys opts)))
     = if forallb or_accepts cs
       then OK (OrState (keep_first opts (flat_map alt_items cs))
                  (list_to_set (leaf_keys (keep_first opts (flat_map alt_items cs)))))
       else Throw TypeError)
    ∧ (forallb or_accepts cs = true →
       "__proto__" ∉ leaf_keys (keep_first opts (flat_map alt_items cs))).
Proof.
  induction 1 as [|c cs Hc _ IH]; intros Hcs opts Hp.
  - done.
  - apply Forall_cons in Hcs as [Hsc Hcs].
    destruct (Hc Hsc opts Hp) as [Hrun Hkeep].
    cbn [foldM forallb flat_map]. rewrite Hrun, keep_first_app.
    destruct (or_accepts c); cbn [andb]; [|done].
    by apply IH, Hkeep.
Qed.

(** What [addOption] does with a node, in terms of [keep_first]. *)
Lemma addOption_keep_first child :
  splices_nodes child = true →
  ∀ opts, "__proto__" ∉ leaf_keys opts →
    (addOption child (OrState opts (list_to_set (leaf_keys opts)))
     = if or_accepts child
       then OK (OrState (keep_first opts (alt_items child))
                  (list_to_set (leaf_keys (keep_first opts (alt_items child)))))
       else Throw TypeError)
    ∧ (or_accepts child = true →
       "__proto__" ∉ leaf_keys (keep_first opts (alt_items child))).
Proof.
  induction child as [s|op content|op content cs IH|] using value_ind';
    intros Hn opts Hp; try discriminate.
  - destruct (String.eqb_spec op "|") as [->|Hop]; [done|].
    replace (alt_items (VObj op content None)) with [VObj op content None]
      by (cbn; by destruct (String.eqb_spec op "|")).
    by apply addOption_keep_first_flat.
  - destruct (String.eqb_spec op "|") as [->|Hop].
    + cbn [splices_nodes String.eqb Ascii.eqb Bool.eqb] in Hn.
      apply forallb_Forall in Hn.
      rewrite addOption_alt. cbn [or_accepts alt_items String.eqb Ascii.eqb Bool.eqb].
      by apply foldM_addOption_keep_first.
    + replace (alt_items (VObj op content (Some cs))) with [VObj op content (Some cs)]
        by (cbn; by destruct (String.eqb_spec op "|")).
      by apply addOption_keep_first_flat.
Qed.

(** C4.  For all nodes [a] and [b] and every [c],
    [or(or(a, b), c)] is [or(a, b, c)], exceptions included.  The options
    that [or] returns for nodes are the candidates of its arguments in the
    order of the arguments, where a Choice among them stands for its own
    candidates at its place, and where of the leaves with one content the
    first stays; [or] throws when a Choice that is reached has no array of
    children or a leaf that is reached has the content "__proto__".  The
    nodes are those whose Choices hold nodes, as every Choice made by [or]
    does. *)
Theorem or_flattens :
  (∀ a b c,
     splices_nodes a = true → splices_nodes b = true →
     (ab ← or [a; b]; or [ab; c]) = or [a; b; c])
  ∧ (∀ arguments,
       Forall (λ a, splices_nodes a = true) arguments →
       or arguments
       = if forallb or_accepts arguments
         then OK (collapse "|" (keep_first [] (flat_map alt_items arguments)))
         else Throw TypeError).
Proof.
  split.
  - intros a b c Ha Hb. unfold or.
    change [a; b; c] with ([a; b] ++ [c]). rewrite foldM_app.
    destruct (foldM addOption [a; b] (OrState [] ∅)) as [st|e] eqn:Hab;
      unfold mbind, result_bind; [|reflexivity].
    assert (exact st) as Hst.
    { eapply (foldM_invariant addOption exact [a; b]); [|apply exact_init|exact Hab].
      apply Forall_cons; split; [by apply addOption_exact|].
      apply Forall_cons; split; [by apply addOption_exact|constructor]. }
    cbn [foldM]. by rewrite addOption_collapse.
  - intros arguments Hargs. unfold or.
    destruct (foldM_addOption_keep_first arguments) with (opts := @nil value)
      as [Hrun _]; [|done|apply not_elem_of_nil|].
    + apply Forall_forall. intros c _. apply addOption_keep_first.
    + change (OrState [] (list_to_set (leaf_keys []))) with (OrState [] ∅) in Hrun.
      rewrite Hrun. by destruct (forallb or_accepts arguments).
Qed.

Lemma or_flattens_witness :
  ((ab ← or [Leaf "x"; Choice [Leaf "x"; Leaf "y"]]; or [ab; VStr "x"])
   = or [Leaf "x"; Choice [Leaf "x"; Leaf "y"]; VStr "x"])
  ∧ or [Choice [Leaf "x"; Repeat [VStr "x"]]; Choice [Leaf "y"; Leaf "x"]]
    = OK (Choice [Leaf "x"; Repeat [VStr "x"]; Leaf "y"]).
Proof.
  split.
  - apply (proj1 or_flattens); reflexivity.
  - apply (proj2 or_flattens
             [Choice [Leaf "x"; Repeat [VStr "x"]]; Choice [Leaf "y"; Leaf "x"]]).
    repeat constructor.
Defined.

(** The texts are not covered: a text is not entered in [alreadySeen]. *)
Lemma or_flattens_not_texts :
  (ab ← or [VStr "x"; VStr "x"]; or [ab; Leaf "y"])
  ≠ or [VStr "x"; VStr "x"; Leaf "y"].
Proof. vm_compute. discriminate. Qed.

(** ** The builders: what they keep *)

(** What a step of [addOption] that does not splice does to the state. *)
Lemma addOption_flat child st st' :
  has_op "|" child = false → addOption child st = OK st' →
  st' = st ∨ ∃ n, toNode child = OK n ∧ options st' = options st ++ [n].
Proof.
  destruct child as [s|op content children|]; cbn [has_op]; intros Hop Hrun.
  - right. exists (Leaf s). by injection Hrun as <-.
  - apply String.eqb_neq in Hop.
    destruct (String.eqb_spec op "html") as [->|Hh].
    + rewrite addOption_html in Hrun. case_decide.
      * left. by injection Hrun as <-.
      * destruct (String.eqb (ToString content) "__proto__"); [discriminate|].
        right. eexists. split; [reflexivity|]. by injection Hrun as <-.
    + rewrite addOption_other in Hrun by done.
      right. eexists. split; [reflexivity|]. by injection Hrun as <-.
  - discriminate.
Qed.

Lemma addItem_flat item items items' :
  has_op "." item = false → addItem item items = OK items' →
  ∃ n, toNode item = OK n ∧ items' = items ++ [n].
Proof.
  destruct item as [s|op content children|]; cbn [has_op]; intros Hop Hrun.
  - exists (Leaf s). by injection Hrun as <-.
  - cbn in Hrun. rewrite Hop in Hrun. eexists. split; [reflexivity|].
    by injection Hrun as <-.
  - discriminate.
Qed.

Lemma addItem_seq content cs items :
  addItem (VObj "." content (Some cs)) items = foldM addItem cs items.
Proof. reflexivity. Qed.

Section Kept.

(** [G] is what is known of the arguments, [R] what is shown of the
    collected elements. *)
Variables (op : string) (G R : value → Prop).
Hypothesis G_children :
  ∀ content cs, G (VObj op content (Some cs)) → Forall G cs.
Hypothesis R_toNode :
  ∀ v n, G v → has_op op v = false → toNode v = OK n → R n.

Lemma addOption_kept child :
  op = "|" → G child →
  ∀ st st', Forall R (options st) → addOption child st = OK st' →
            Forall R (options st').
Proof.
  intros ->.
  induction child as [s|op' content|op' content cs IH|] using value_ind';
    intros Hg st st' Hst Hrun.
  all: match goal with
       | H : addOption ?v _ = _ |- _ => destruct (has_op "|" v) eqn:Hflat
       end.
  all: try (destruct (addOption_flat _ _ _ Hflat Hrun) as [->|(n & Hn & ->)]; [done|];
            apply Forall_app; split; [done|]; repeat constructor; by eapply R_toNode).
  all: try discriminate Hflat.
  all: apply String.eqb_eq in Hflat as ->.
  - discriminate Hrun.
  - rewrite addOption_alt in Hrun.
    eapply (foldM_invariant addOption (λ st, Forall R (options st)) cs);
      [|exact Hst|exact Hrun].
    apply G_children in Hg. rewrite Forall_forall in IH, Hg.
    apply Forall_forall. intros c Hc. by apply IH, Hg.
Qed.

Lemma addItem_kept item :
  op = "." → G item →
  ∀ items items', Forall R items → addItem item items = OK items' →
                  Forall R items'.
Proof.
  intros ->.
  induction item as [s|op' content|op' content cs IH|] using value_ind';
    intros Hg items items' Hst Hrun.
  all: match goal with
       | H : addItem ?v _ = _ |- _ => destruct (has_op "." v) eqn:Hflat
       end.
  all: try (destruct (addItem_flat _ _ _ Hflat Hrun) as (n & Hn & ->);
            apply Forall_app; split; [done|]; repeat constructor; by eapply R_toNode).
  all: try discriminate Hflat.
  all: apply String.eqb_eq in Hflat as ->.
  - discriminate Hrun.
  - rewrite addItem_seq in Hrun.
    eapply (foldM_invariant addItem (Forall R) cs); [|exact Hst|exact Hrun].
    apply G_children in Hg. rewrite Forall_forall in IH, Hg.
    apply Forall_forall. intros c Hc. by apply IH, Hg.
Qed.

(** What a loop over the arguments collects. *)
Lemma or_loop_kept arguments st st' :
  op = "|" → Forall G arguments → Forall R (options st) →
  foldM addOption arguments st = OK st' → Forall R (options st').
Proof.
  intros Hop Hg Hst Hrun.
  eapply (foldM_invariant addOption (λ st, Forall R (options st)) arguments);
    [|exact Hst|exact Hrun].
  eapply Forall_impl; [exact Hg|]. intros c Hc s s'. by apply addOption_kept.
Qed.

Lemma each_loop_kept arguments items items' :
  op = "." → Forall G arguments → Forall R items →
  foldM addItem arguments items = OK items' → Forall R items'.
Proof.
  intros Hop Hg Hst Hrun.
  eapply (foldM_invariant addItem (Forall R) arguments); [|exact Hst|exact Hrun].
  eapply Forall_impl; [exact Hg|]. intros c Hc s s'. by apply addItem_kept.
Qed.

End Kept.

Lemma collapse_cases op items :
  items = [collapse op items]
  ∨ (length items ≠ 1%nat ∧ collapse op items = VObj op None (Some items)).
Proof. destruct items as [|v [|w items]]; cbn; auto. Qed.

Lemma toNode_has_op op v n :
  op ≠ "html" → has_op op v = false → toNode v = OK n → has_op op n = false.
Proof.
  destruct v as [s|op' content children|]; cbn [has_op toNode]; intros Hh Hop Hn.
  - injection Hn as <-. apply String.eqb_neq. congruence.
  - injection Hn as <-. exact Hop.
  - discriminate.
Qed.

Lemma toNode_is_node v n : toNode v = OK n → is_node n = true.
Proof. destruct v; cbn; intros Hn; by try injection Hn as <-. Qed.

(** The induction over [api_value] that reaches into the arguments. *)
Lemma api_value_ind' (P : value → Prop)
    (Htext : ∀ s, P (VStr s))
    (Hor : ∀ arguments v, Forall P arguments → or arguments = OK v → P v)
    (Heach : ∀ arguments v, Forall P arguments → each arguments = OK v → P v)
    (Hmaybe : ∀ child v, P child → maybe child = OK v → P v)
    (Hmany : ∀ child, P child → P (many child))
    (Hany : ∀ child v, P child → any child = OK v → P v) :
  ∀ v, api_value v → P v.
Proof.
  fix IH 2. intros v [s|arguments v' Hargs Hv|arguments v' Hargs Hv
                      |child v' Hc Hv|child Hc|child v' Hc Hv].
  - apply Htext.
  - apply (Hor arguments); [|exact Hv].
    clear Hv. induction Hargs as [|a l Ha _ IHl]; constructor; [apply IH, Ha | apply IHl].
  - apply (Heach arguments); [|exact Hv].
    clear Hv. induction Hargs as [|a l Ha _ IHl]; constructor; [apply IH, Ha | apply IHl].
  - apply (Hmaybe child); [apply IH, Hc | exact Hv].
  - apply Hmany, IH, Hc.
  - apply (Hany child); [apply IH, Hc | exact Hv].
Qed.

Section Closed.

(** A property of trees that the builders cannot break. *)
Variable Q : value → Prop.
Hypothesis Q_text : ∀ s, Q (VStr s).
Hypothesis Q_leaf : ∀ s, Q (Leaf s).
Hypothesis Q_children :
  ∀ op content cs, op = "|" ∨ op = "." →
    Q (VObj op content (Some cs)) → Forall Q cs.
Hypothesis Q_node :
  ∀ op items, op = "|" ∨ op = "." →
    Forall Q items → Forall (λ v, is_node v = true) items →
    Forall (λ v, has_op op v = false) items →
    length items ≠ 1%nat → Q (VObj op None (Some items)).
Hypothesis Q_many : ∀ child, Q child → Q (many child).

Lemma Q_toNode v n : Q v → toNode v = OK n → Q n.
Proof.
  destruct v as [s| |]; cbn; intros Hv Hn; try injection Hn as <-; try done.
Qed.

Lemma or_closed arguments v : Forall Q arguments → or arguments = OK v → Q v.
Proof.
  intros Hargs Hv. unfold or in Hv.
  destruct (foldM addOption arguments (OrState [] ∅)) as [st|] eqn:Hrun;
    [|discriminate]. injection Hv as <-.
  assert (Forall Q (options st)) as HQ.
  { refine (or_loop_kept "|" Q Q _ _ arguments _ st eq_refl Hargs _ Hrun).
    - intros content cs. apply Q_children. by left.
    - intros v n Hq _. by apply Q_toNode.
    - constructor. }
  assert (Forall (λ v, has_op "|" v = false) (options st)) as Hflat.
  { refine (or_loop_kept "|" (λ _, True) _ _ _ arguments _ st eq_refl _ _ Hrun).
    - intros _ cs _. by apply Forall_true.
    - intros v n _. by apply toNode_has_op.
    - by apply Forall_true.
    - constructor. }
  assert (Forall (λ v, is_node v = true) (options st)) as Hnodes.
  { refine (or_loop_kept "|" (λ _, True) _ _ _ arguments _ st eq_refl _ _ Hrun).
    - intros _ cs _. by apply Forall_true.
    - intros v n _ _. by apply toNode_is_node.
    - by apply Forall_true.
    - constructor. }
  destruct (collapse_cases "|" (options st)) as [Hone|[Hlen ->]].
  - rewrite Hone in HQ. by apply Forall_cons in HQ as [? _].
  - apply Q_node; auto.
Qed.

Lemma each_closed arguments v : Forall Q arguments → each arguments = OK v → Q v.
Proof.
  intros Hargs Hv. unfold each in Hv.
  destruct (foldM addItem arguments []) as [items|] eqn:Hrun;
    [|discriminate]. injection Hv as <-.
  assert (Forall Q items) as HQ.
  { refine (each_loop_kept "." Q Q _ _ arguments _ items eq_refl Hargs _ Hrun).
    - intros content cs. apply Q_children. by right.
    - intros v n Hq _. by apply Q_toNode.
    - constructor. }
  assert (Forall (λ v, has_op "." v = false) items) as Hflat.
  { refine (each_loop_kept "." (λ _, True) _ _ _ arguments _ items eq_refl _ _ Hrun).
    - intros _ cs _. by apply Forall_true.
    - intros v n _. by apply toNode_has_op.
    - by apply Forall_true.
    - constructor. }
  assert (Forall (λ v, is_node v = true) items) as Hnodes.
  { refine (each_loop_kept "." (λ _, True) _ _ _ arguments _ items eq_refl _ _ Hrun).
    - intros _ cs _. by apply Forall_true.
    - intros v n _ _. by apply toNode_is_node.
    - by apply Forall_true.
    - constructor. }
  destruct (collapse_cases "." items) as [Hone|[Hlen ->]].
  - rewrite Hone in HQ. by apply Forall_cons in HQ as [? _].
  - apply Q_node; auto.
Qed.

Lemma maybe_closed child v : Q child → maybe child = OK v → Q v.
Proof.
  intros Hc Hv. unfold maybe in Hv. cbn [toNode mbind result_bind] in Hv.
  destruct (toNode child) as [b|] eqn:Hb; [|discriminate].
  apply (or_closed [Leaf "▶"; b]); [|exact Hv].
  repeat constructor; [apply Q_leaf | by eapply Q_toNode].
Qed.

Lemma api_value_closed v : api_value v → Q v.
Proof.
  induction 1 using api_value_ind'.
  - apply Q_text.
  - by eapply or_closed.
  - by eapply each_closed.
  - by eapply maybe_closed.
  - by apply Q_many.
  - eapply maybe_closed; [|done]. by apply Q_many.
Qed.

End Closed.

Lemma shaped_node len_ok op content cs :
  op ≠ "html" →
  shaped len_ok (VObj op content (Some cs))
  = forallb (shaped len_ok) cs
    && (if String.eqb op "." || String.eqb op "|"
        then len_ok (length cs) && forallb (λ c, negb (has_op op c)) cs
        else true).
Proof. intros Hop. cbn [shaped]. by destruct (String.eqb_spec op "html"). Qed.

(** C3, as the code has it.  In every value that the builders return, a
    Sequence has no Sequence and a Choice no Choice as a direct child, and
    neither has exactly one child: it has none or at least two.  The empty
    argument list gives the Sequence and the Choice without children. *)
Theorem builders_keep_collapsed :
  (∀ v, api_value v → collapsed v = true)
  ∧ each [] = OK (Sequence [])
  ∧ or [] = OK (Choice []).
Proof.
  split; [|split; reflexivity].
  apply (api_value_closed (λ v, collapsed v = true)); unfold collapsed.
  - reflexivity.
  - reflexivity.
  - intros op content cs Hop Hv.
    rewrite shaped_node in Hv by (destruct Hop as [-> | ->]; discriminate).
    apply andb_prop in Hv as [Hcs _]. by apply forallb_Forall.
  - intros op items Hop Hitems _ Hflat Hlen.
    rewrite shaped_node by (destruct Hop as [-> | ->]; discriminate).
    apply andb_true_intro; split; [by apply forallb_Forall|].
    replace (String.eqb op "." || String.eqb op "|") with true
      by (destruct Hop as [-> | ->]; reflexivity).
    apply andb_true_intro; split.
    + apply negb_true_iff, Nat.eqb_neq, Hlen.
    + apply forallb_Forall. eapply Forall_impl; [exact Hflat|].
      intros c Hc. cbn beta. by rewrite Hc.
  - intros child Hc. unfold many. rewrite shaped_node by discriminate.
    cbn [forallb]. by rewrite Hc.
Qed.

Lemma builders_keep_collapsed_witness :
  collapsed (VObj "|" None (Some [Leaf "▶"; Repeat [VStr "x"]])) = true.
Proof.
  apply (proj1 builders_keep_collapsed).
  apply (api_any (VStr "x")); [apply api_text | reflexivity].
Defined.

(** C3 fails on the empty argument list: [each()] is a Sequence without
    children, which the builders return as it is. *)
Lemma builders_break_canonical :
  ¬ (∀ v, api_value v → canonical v = true).
Proof.
  intros H. specialize (H (Sequence [])). discriminate H.
  apply (api_each []); [constructor | reflexivity].
Qed.

Lemma choices_hold_nodes_splices v :
  choices_hold_nodes v = true → is_node v = true → splices_nodes v = true.
Proof.
  induction v as [s|op content|op content cs IH|] using value_ind';
    intros Hv Hn; try discriminate.
  - cbn. by destruct (String.eqb op "|").
  - cbn [splices_nodes]. destruct (String.eqb_spec op "|") as [->|_]; [|done].
    cbn in Hv. apply andb_prop in Hv as [Hcs Hnodes].
    apply forallb_Forall in Hcs, Hnodes. apply forallb_Forall.
    rewrite Forall_forall in IH, Hcs, Hnodes. apply Forall_forall. auto.
Qed.

(** The nodes that the builders return are nodes that [addOption] splices
    into nodes. *)
Lemma api_value_splices_nodes v :
  api_value v → is_node v = true → splices_nodes v = true.
Proof.
  intros Hv. apply choices_hold_nodes_splices. revert v Hv.
  apply (api_value_closed (λ v, choices_hold_nodes v = true)).
  - done.
  - done.
  - intros op content cs Hop Hv.
    assert (op ≠ "html") as Hh by (destruct Hop as [-> | ->]; discriminate).
    cbn [choices_hold_nodes] in Hv. destruct (String.eqb_spec op "html"); [done|].
    apply andb_prop in Hv as [Hcs _]. by apply forallb_Forall.
  - intros op items Hop Hitems Hnodes _ _.
    assert (op ≠ "html") as Hh by (destruct Hop as [-> | ->]; discriminate).
    cbn [choices_hold_nodes]. destruct (String.eqb_spec op "html"); [done|].
    apply andb_true_intro. split; [by apply forallb_Forall|].
    destruct (String.eqb op "|"); [by apply forallb_Forall|done].
  - intros child Hc. cbn. by rewrite Hc.
Qed.

(** ** The layout pass: arithmetic *)

Lemma ToInt32_small (a : Z) : - 2 ^ 31 ≤ a < 2 ^ 31 → ToInt32 a = a.
Proof.
  intros Ha. unfold ToInt32.
  destruct (Z.neg_nonneg_cases a) as [Hneg|Hpos].
  - assert (a mod 2 ^ 32 = a + 2 ^ 32) as ->.
    { symmetry. apply (Z.mod_unique_pos _ _ (-1)); lia. }
    destruct (Z.leb_spec (2 ^ 31) (a + 2 ^ 32)); lia.
  - rewrite Z.mod_small by lia.
    destruct (Z.leb_spec (2 ^ 31) a); lia.
Qed.

(** Within the 32-bit range [a >> 1] is the floor of [a / 2]. *)
Lemma shr_1 (a : Z) : - 2 ^ 31 ≤ a < 2 ^ 31 → shr a 1 = a `div` 2.
Proof.
  intros Ha. unfold shr. rewrite ToInt32_small by done.
  change (1 mod 32) with 1. by rewrite Z.shiftr_div_pow2.
Qed.

Lemma sum_list_cons (x : Z) (l : list Z) : sum_list (x :: l) = x + sum_list l.
Proof. reflexivity. Qed.

Lemma sum_list_app (l1 l2 : list Z) :
  sum_list (l1 ++ l2) = sum_list l1 + sum_list l2.
Proof.
  induction l1 as [|x l1 IH]; [done|].
  cbn [app]. rewrite !sum_list_cons, IH. lia.
Qed.

Lemma fold_max_spec {A} (f : A → Z) (l : list A) (a : Z) :
  let m := fold_left (λ h c, Z.max h (f c)) l a in
  a ≤ m ∧ Forall (λ c, f c ≤ m) l ∧ (m = a ∨ m ∈ f <$> l).
Proof.
  revert a. induction l as [|c l IH]; intros a; cbn.
  - split; [lia|]. split; [constructor|by left].
  - specialize (IH (Z.max a (f c))). cbv zeta in IH.
    set (m := fold_left _ l (Z.max a (f c))) in *.
    destruct IH as (Hle & Hall & Hin).
    split; [lia|]. split; [constructor; [lia|done]|].
    destruct Hin as [Hin|Hin]; [|right; by apply list_elem_of_further].
    destruct (Z.max_spec a (f c)) as [[_ Hm]|[_ Hm]]; rewrite Hm in Hin.
    + right. rewrite Hin. apply list_elem_of_here.
    + by left.
Qed.

(** The greatest of non-negative sizes, computed from 0. *)
Lemma fold_max_is_max {A} (f : A → Z) (l : list A) :
  Forall (λ c, 0 ≤ f c) l → l ≠ [] →
  is_max (fold_left (λ h c, Z.max h (f c)) l 0) (f <$> l).
Proof.
  intros Hpos Hne. pose proof (fold_max_spec f l 0) as Hspec.
  cbv zeta in Hspec. set (m := fold_left _ l 0) in *.
  destruct Hspec as (H0 & Hall & Hin).
  split; [by apply Forall_fmap|].
  destruct Hin as [Hin|Hin]; [|done].
  destruct l as [|c l]; [done|].
  apply Forall_cons in Hpos as [Hc _]. apply Forall_cons in Hall as [Hc' _].
  assert (m = f c) as -> by lia. apply list_elem_of_here.
Qed.

Lemma mapM_Forall2 {A B} (f : A → result B) l bs :
  mapM f l = OK bs → Forall2 (λ a b, f a = OK b) l bs.
Proof.
  revert bs. induction l as [|a l IH]; intros bs Hrun; cbn in Hrun.
  - injection Hrun as <-. constructor.
  - destruct (f a) as [b|] eqn:Hb; [|discriminate].
    destruct (mapM f l) as [bs'|]; [|discriminate].
    injection Hrun as <-. constructor; auto.
Qed.

Lemma mapM_Throw {A B} (f : A → result B) l a :
  a ∈ l → (∃ e, f a = Throw e) → ∃ e, mapM f l = Throw e.
Proof.
  intros Hin Hthrow. induction Hin as [a l|a b l _ IH]; cbn.
  - destruct Hthrow as [e ->]. eauto.
  - destruct (f b); [|eauto]. destruct (IH Hthrow) as [e ->]. eauto.
Qed.

Lemma mapM_Throw_inv {A B} (f : A → result B) l e :
  mapM f l = Throw e → ∃ a, a ∈ l ∧ f a = Throw e.
Proof.
  induction l as [|a l IH]; cbn; [discriminate|].
  destruct (f a) as [b|e'] eqn:Ha.
  - destruct (mapM f l); [discriminate|]. intros He.
    destruct (IH He) as (a' & Hin & Ha'). exists a'.
    split; [by apply list_elem_of_further|done].
  - intros [= <-]. exists a. split; [apply list_elem_of_here|done].
Qed.

Section LayoutFacts.

Variable measure : string → bool → N * N.


(** [appendToDOM measure] on a node that is not a leaf. *)
Lemma appendToDOM_node op content cs opt_stats :
  op ≠ "html" →
  appendToDOM measure (VObj op content (Some cs)) opt_stats
  = children ← attach measure cs;
    div ← layout measure op children;
    OK (div,
        match opt_stats with
        | Some _ => Some (Stats (Num (offsetWidth measure div)) (Num (offsetHeight measure div)))
        | None => None
        end).
Proof.
  intros Hop. cbn [appendToDOM].
  by destruct (String.eqb_spec op "html").
Qed.

(** The first statement of [appendToDOM measure], [node = toNode(node)]. *)
Lemma appendToDOM_toNode node opt_stats :
  appendToDOM measure node opt_stats = n ← toNode node; appendToDOM measure n opt_stats.
Proof. destruct node; reflexivity. Qed.

Lemma each_cols_width height children width :
  (each_cols measure height children width).2
  = width + sum_list (offsetWidth measure <$> children) + 16 * Z.of_nat (length children).
Proof.
  revert width. induction children as [|c cs IH]; intros width.
  - cbn. lia.
  - cbn [each_cols]. specialize (IH (width + offsetWidth measure c + 16)).
    destruct (each_cols measure height cs (width + offsetWidth measure c + 16)) as [[cols arrows] w].
    cbn [snd] in *. rewrite IH, fmap_cons, sum_list_cons. cbn [length]. lia.
Qed.

Lemma layout_each_size children :
  offsetWidth measure (layout_each measure children)
  = sum_list (offsetWidth measure <$> children) + 16 * (Z.of_nat (length children) + 1)
  ∧ offsetHeight measure (layout_each measure children) = each_height measure children.
Proof.
  unfold layout_each.
  pose proof (each_cols_width (each_height measure children) children 16) as Hw.
  destruct (each_cols measure _ children 16) as [[cols arrows] w].
  cbn [snd] in Hw. cbn. split; [lia|reflexivity].
Qed.

Lemma or_rows_height_next width i children height :
  i ≠ 0%nat →
  (or_rows measure width i children height).2
  = height + sum_list ((λ c, offsetHeight measure c + 16) <$> children).
Proof.
  revert i height. induction children as [|c cs IH]; intros i height Hi.
  - cbn. lia.
  - cbn [or_rows]. destruct (Nat.eqb_spec i 0) as [|_]; [done|].
    specialize (IH (S i) (height + 16 + offsetHeight measure c) ltac:(done)).
    destruct (or_rows measure width (S i) cs _) as [rows h].
    cbn [snd] in *. rewrite IH, fmap_cons, sum_list_cons. lia.
Qed.

Lemma sum_list_shift {A} (f : A → Z) (k : Z) (l : list A) :
  sum_list ((λ c, f c + k) <$> l) = sum_list (f <$> l) + k * Z.of_nat (length l).
Proof.
  induction l as [|c l IH]; [cbn; lia|].
  rewrite !fmap_cons, !sum_list_cons, IH. cbn [length]. lia.
Qed.

Lemma or_rows_height width c children :
  (or_rows measure width 0 (c :: children) 0).2
  = sum_list (offsetHeight measure <$> c :: children) + 16 * Z.of_nat (length children).
Proof.
  cbn [or_rows Nat.eqb].
  pose proof (or_rows_height_next width 1 children (0 + offsetHeight measure c) ltac:(done)) as H.
  destruct (or_rows measure width 1 children _) as [rows h].
  cbn [snd] in *. rewrite H, sum_list_shift, fmap_cons, sum_list_cons. lia.
Qed.

Lemma layout_or_size children :
  offsetWidth measure (layout_or measure children) = or_width measure children
  ∧ offsetHeight measure (layout_or measure children)
    = (or_rows measure (or_width measure children) 0 children 0).2.
Proof.
  unfold layout_or. by destruct (or_rows measure _ 0 children 0) as [rows h].
Qed.

Lemma or_width_spec children :
  0 ≤ or_width measure children
  ∧ Forall (λ c, 32 + offsetWidth measure c ≤ or_width measure children) children
  ∧ (or_width measure children = 0
     ∨ or_width measure children ∈ (λ c, 32 + offsetWidth measure c) <$> children).
Proof. apply (fold_max_spec (λ c, 32 + offsetWidth measure c) children 0). Qed.

Lemma sum_list_nonneg (l : list Z) : Forall (λ x, 0 ≤ x) l → 0 ≤ sum_list l.
Proof. induction 1; [done|]. rewrite sum_list_cons. lia. Qed.

(** Laying out children of non-negative sizes gives a non-negative size. *)
Lemma layout_sized op children div :
  Forall (sized measure) children → layout measure op children = OK div → sized measure div.
Proof.
  intros Hkids. unfold layout.
  destruct (String.eqb op "|"); [|destruct (String.eqb op "+");
                                   [|destruct (String.eqb op "."); [|discriminate]]];
    intros Hdiv.
  - injection Hdiv as <-. destruct (layout_or_size children) as [Hw Hh].
    split.
    + rewrite Hw. apply (fold_max_spec (λ c, 32 + offsetWidth measure c) children 0).
    + rewrite Hh. destruct children as [|c cs]; [done|].
      rewrite or_rows_height.
      assert (0 ≤ sum_list (offsetHeight measure <$> c :: cs)); [|lia].
      apply sum_list_nonneg, Forall_fmap. eapply Forall_impl; [exact Hkids|].
      by intros k [_ ?].
  - destruct children as [|c cs]; [discriminate|]. injection Hdiv as <-.
    apply Forall_cons in Hkids as [[Hw Hh] _]. split; cbn; lia.
  - injection Hdiv as <-. destruct (layout_each_size children) as [Hw Hh].
    split.
    + rewrite Hw.
      assert (0 ≤ sum_list (offsetWidth measure <$> children)); [|lia].
      apply sum_list_nonneg, Forall_fmap. eapply Forall_impl; [exact Hkids|].
      by intros k [? _].
    + rewrite Hh. apply (fold_max_spec (offsetHeight measure) children 0).
Qed.

Lemma appendToDOM_sized node :
  ∀ opt_stats div st', appendToDOM measure node opt_stats = OK (div, st') → sized measure div.
Proof.
  assert (∀ content small, sized measure (LeafDiv content small)) as Hleaf.
  { intros. split; cbn; lia. }
  induction node as [s|op content|op content cs IH|] using value_ind';
    intros opt_stats div st' Hrun; try discriminate.
  - injection Hrun as <- _. apply Hleaf.
  - cbn in Hrun. destruct (String.eqb op "html"); [|discriminate].
    injection Hrun as <- _. apply Hleaf.
  - destruct (String.eqb_spec op "html") as [->|Hop].
    { injection Hrun as <- _. apply Hleaf. }
    rewrite appendToDOM_node in Hrun by done.
    destruct (attach measure cs) as [kids|] eqn:Hkids; [|discriminate].
    cbn [mbind result_bind] in Hrun.
    destruct (layout measure op kids) as [d|] eqn:Hd; [|discriminate].
    injection Hrun as <- _. apply (layout_sized op kids); [|done].
    apply mapM_Forall2 in Hkids. clear Hd.
    induction Hkids as [|c k cs' ks Hk _ IHk]; constructor.
    + apply Forall_cons in IH as [IHc _].
      destruct (appendToDOM measure c None) as [[d' s']|] eqn:Hc; [|discriminate].
      injection Hk as <-. by eapply IHc.
    + apply Forall_cons in IH as [_ IH]. by apply IHk.
Qed.

(** The children that were attached report non-negative sizes. *)
Lemma attach_sized cs kids : attach measure cs = OK kids → Forall (sized measure) kids.
Proof.
  intros Hkids. apply mapM_Forall2 in Hkids.
  induction Hkids as [|c k cs' ks Hk _ IHk]; constructor; [|done].
  destruct (appendToDOM measure c None) as [[d' s']|] eqn:Hc; [|discriminate].
  injection Hk as <-. by eapply appendToDOM_sized.
Qed.

End LayoutFacts.

(** ** The layout pass: sizes *)

Lemma fold_left_fmap {A} (f : A → Z) (g : Z → Z → Z) (l : list A) (a : Z) :
  fold_left (λ h c, g h (f c)) l a = fold_left g (f <$> l) a.
Proof. revert a. induction l as [|c l IH]; intros a; cbn; [done|apply IH]. Qed.

(** C5.  A Sequence whose children were attached as [kids] is as wide as
    the sum of their widths plus 16 for each of the [n+1] gaps, and as high
    as the highest of them (0 without children); widths [10,20,30] and
    heights [5,8,6] give 124 by 8.  The sizes are taken below 2^31, where
    the additions of the source are those of integers. *)
Theorem sequence_size :
  (∀ measure content cs kids opt_stats,
     attach measure cs = OK kids →
     offsetWidth measure (layout_each measure kids) < 2 ^ 31 →
     offsetHeight measure (layout_each measure kids) < 2 ^ 31 →
     ∃ div st',
       appendToDOM measure (VObj "." content (Some cs)) opt_stats = OK (div, st')
       ∧ offsetWidth measure div
         = sum_list (offsetWidth measure <$> kids) + 16 * (Z.of_nat (length kids) + 1)
       ∧ match kids with
         | [] => offsetHeight measure div = 0
         | _ => is_max (offsetHeight measure div) (offsetHeight measure <$> kids)
         end)
  ∧ (∀ measure kids,
       offsetWidth measure <$> kids = [10; 20; 30] →
       offsetHeight measure <$> kids = [5; 8; 6] →
       offsetWidth measure (layout_each measure kids) = 124
       ∧ offsetHeight measure (layout_each measure kids) = 8).
Proof.
  split.
  - intros measure content cs kids opt_stats Hkids _ _.
    rewrite appendToDOM_node by discriminate. rewrite Hkids.
    cbn [mbind result_bind]. unfold layout.
    cbn [String.eqb Ascii.eqb Bool.eqb]. eexists _, _. split; [reflexivity|].
    destruct (layout_each_size measure kids) as [Hw Hh]. split; [exact Hw|].
    rewrite Hh. destruct kids as [|k ks]; [reflexivity|].
    apply fold_max_is_max; [|done].
    apply attach_sized in Hkids. eapply Forall_impl; [exact Hkids|]. by intros ? [_ ?].
  - intros measure kids Hws Hhs.
    destruct (layout_each_size measure kids) as [Hw Hh].
    rewrite Hw, Hh. unfold each_height.
    rewrite (fold_left_fmap (offsetHeight measure) Z.max), Hhs, Hws.
    assert (length kids = 3%nat) as ->.
    { by rewrite <- (length_fmap (offsetWidth measure)), Hws. }
    split; reflexivity.
Qed.

Lemma sequence_size_witness :
  ∃ div st',
    appendToDOM sample_measure (Sequence [VStr "a"; VStr "b"; VStr "c"]) None
    = OK (div, st')
    ∧ offsetWidth sample_measure div = 124
    ∧ is_max (offsetHeight sample_measure div) [5; 8; 6].
Proof.
  destruct (proj1 sequence_size sample_measure None
              [VStr "a"; VStr "b"; VStr "c"] _ None eq_refl eq_refl eq_refl)
    as (div & st' & Hrun & Hw & Hh).
  exists div, st'. split; [exact Hrun|]. split; [exact Hw | exact Hh].
Defined.

(** C6.  A Choice whose options were attached as [kids], at least one, is
    as wide as the widest of them plus 32, and as high as the sum of their
    heights plus 16 for each of the [n-1] gaps; without options it is 0 by
    0.  Heights [10,20] and widths [40,50] give 82 by 46.  The sizes are
    taken below 2^31, where the additions of the source are those of
    integers. *)
Theorem choice_size :
  (∀ measure content cs kids opt_stats,
     attach measure cs = OK kids →
     offsetWidth measure (layout_or measure kids) < 2 ^ 31 →
     offsetHeight measure (layout_or measure kids) < 2 ^ 31 →
     ∃ div st',
       appendToDOM measure (VObj "|" content (Some cs)) opt_stats = OK (div, st')
       ∧ match kids with
         | [] => offsetWidth measure div = 0 ∧ offsetHeight measure div = 0
         | _ =>
             is_max (offsetWidth measure div - 32) (offsetWidth measure <$> kids)
             ∧ offsetHeight measure div
               = sum_list (offsetHeight measure <$> kids)
                 + 16 * (Z.of_nat (length kids) - 1)
         end)
  ∧ (∀ measure kids,
       offsetHeight measure <$> kids = [10; 20] →
       offsetWidth measure <$> kids = [40; 50] →
       offsetHeight measure (layout_or measure kids) = 46
       ∧ offsetWidth measure (layout_or measure kids) = 82).
Proof.
  split.
  - intros measure content cs kids opt_stats Hkids _ _.
    rewrite appendToDOM_node by discriminate. rewrite Hkids.
    cbn [mbind result_bind]. unfold layout.
    cbn [String.eqb Ascii.eqb Bool.eqb]. eexists _, _. split; [reflexivity|].
    destruct (layout_or_size measure kids) as [Hw Hh]. rewrite Hw, Hh.
    destruct kids as [|k ks]; [done|]. split.
    + apply attach_sized in Hkids.
      destruct (or_width_spec measure (k :: ks)) as (_ & Hall & Hin).
      set (w := or_width measure (k :: ks)) in *. split.
      * apply Forall_fmap. eapply Forall_impl; [exact Hall|].
        intros c Hc. unfold compose. cbn beta in *. lia.
      * destruct Hin as [Hin|Hin].
        -- apply Forall_cons in Hall as [Hk _]. apply Forall_cons in Hkids as [[Hk' _] _].
           lia.
        -- apply list_elem_of_fmap in Hin as (c & -> & Hc).
           replace (32 + offsetWidth measure c - 32) with (offsetWidth measure c) by lia.
           by apply list_elem_of_fmap_2.
    + rewrite or_rows_height. cbn [length]. lia.
  - intros measure kids Hhs Hws.
    destruct (layout_or_size measure kids) as [Hw Hh]. rewrite Hw, Hh.
    destruct kids as [|k ks]; [discriminate|].
    rewrite or_rows_height, Hhs. unfold or_width.
    rewrite (fold_left_fmap (offsetWidth measure) (λ w x, Z.max w (32 + x))), Hws.
    assert (length ks = 1%nat) as ->.
    { apply (f_equal length) in Hws. rewrite length_fmap in Hws. cbn in Hws. lia. }
    split; reflexivity.
Qed.

Lemma choice_size_witness :
  ∃ div st',
    appendToDOM sample_measure (Choice [Leaf "p"; Leaf "q"]) None = OK (div, st')
    ∧ is_max (offsetWidth sample_measure div - 32) [40; 50]
    ∧ offsetHeight sample_measure div = 46.
Proof.
  destruct (proj1 choice_size sample_measure None
              [Leaf "p"; Leaf "q"] _ None eq_refl eq_refl eq_refl)
    as (div & st' & Hrun & Hw & Hh).
  exists div, st'. split; [exact Hrun|]. split; [exact Hw | exact Hh].
Defined.

(** ** The layout pass: the statistics *)

(** C9.  For a leaf, given as a node or as a text, the object [opt_stats]
    receives [undefined] as width and as height, though the [DIV] has both
    offsets: the properties read are "offesetWidth" and "offesetHeight".  For
    a node that is not a leaf it receives the computed width and height. *)
Theorem leaf_stats_undefined :
  (∀ measure node content children st0,
     toNode node = OK (VObj "html" content children) →
     ∃ div w h,
       appendToDOM measure node (Some st0)
       = OK (div, Some (Stats Undefined Undefined))
       ∧ get_prop measure div "offsetWidth" = Num w
       ∧ get_prop measure div "offsetHeight" = Num h)
  ∧ (∀ measure op content cs st0 div st',
       op ≠ "html" →
       appendToDOM measure (VObj op content (Some cs)) (Some st0) = OK (div, st') →
       ∃ kids spans w h,
         div = BoxDiv kids spans w h ∧ st' = Some (Stats (Num w) (Num h))).
Proof.
  split.
  - intros measure node content children st0 Hnode.
    rewrite appendToDOM_toNode, Hnode. cbn [mbind result_bind].
    eexists _, _, _. split; [reflexivity|]. split; reflexivity.
  - intros measure op content cs st0 div st' Hop Hrun.
    rewrite appendToDOM_node in Hrun by done.
    destruct (attach measure cs) as [kids|]; [|discriminate].
    cbn [mbind result_bind] in Hrun.
    destruct (layout measure op kids) as [[|ks spans w h]|] eqn:Hd; try discriminate.
    + exfalso. unfold layout, layout_or, layout_each, layout_many in Hd.
      repeat match type of Hd with
             | (if ?b then _ else _) = _ => destruct b
             | (let '(_, _) := ?p in _) = _ => destruct p
             | match ?l with [] => _ | _ :: _ => _ end = _ => destruct l
             | OK (let '(_, _) := ?p in _) = _ => destruct p
             end; discriminate.
    + injection Hrun as <- <-. by eexists _, _, _, _.
Qed.

Lemma leaf_stats_undefined_witness :
  (∃ div w h,
     appendToDOM sample_measure (VStr "a") (Some (Stats (Num 1) (Num 2)))
     = OK (div, Some (Stats Undefined Undefined))
     ∧ get_prop sample_measure div "offsetWidth" = Num w
     ∧ get_prop sample_measure div "offsetHeight" = Num h)
  ∧ (∃ kids spans w h,
       BoxDiv [(LeafDiv "a" false, Some (16, 8))]
         ([Span 8 0 26 2 LoopTop; Span 8 (-2) 8 12 LoopLeft;
           Span 26 (-2) 8 12 LoopRight; Span 0 (-5) 42 8 (Arrowhead "◀")]
          ++ [Span 0 10 16 1 Rule] ++ [Span 26 10 16 1 Rule]) 42 21
       = BoxDiv kids spans w h
       ∧ Some (Stats (Num 42) (Num 21)) = Some (Stats (Num w) (Num h))).
Proof.
  split.
  - exact (proj1 leaf_stats_undefined sample_measure (VStr "a") (Some "a") None
             (Stats (Num 1) (Num 2)) eq_refl).
  - refine (proj2 leaf_stats_undefined sample_measure "+" None [VStr "a"]
              (Stats (Num 1) (Num 2)) _ _ _ eq_refl).
    discriminate.
Defined.

(** ** The layout pass: unknown operators *)

Lemma existsb_Forall {A} (f : A → bool) (l : list A) :
  existsb f l = false ↔ Forall (λ x, f x = false) l.
Proof.
  induction l as [|x l IH]; cbn.
  - split; [constructor|done].
  - rewrite orb_false_iff, Forall_cons. naive_solver.
Qed.

Lemma existsb_elem {A} (f : A → bool) (l : list A) :
  existsb f l = true → ∃ x, x ∈ l ∧ f x = true.
Proof.
  rewrite existsb_exists. intros (x & Hx & Hf). exists x.
  split; [by apply list_elem_of_In|done].
Qed.

Section Unknown.

Variable measure : string → bool → N * N.

Lemma layout_unknown op kids :
  known_op op = false → layout measure op kids = Throw (Error (VStr op)).
Proof.
  unfold known_op, layout. intros H.
  repeat apply orb_false_elim in H as [H ?].
  by repeat match goal with H : String.eqb _ _ = false |- _ => rewrite H; clear H end.
Qed.

Lemma layout_known op kids :
  known_op op = true → op ≠ "html" → (op = "+" → kids ≠ []) →
  ∃ div, layout measure op kids = OK div.
Proof.
  unfold known_op, layout. intros H Hh Hne.
  destruct (String.eqb_spec op "html"); [done|].
  destruct (String.eqb_spec op "|"); [eauto|].
  destruct (String.eqb_spec op "+") as [Hp|].
  { destruct kids; [by destruct Hne|]. cbn. eauto. }
  destruct (String.eqb_spec op "."); [eauto|discriminate].
Qed.

Lemma has_unknown_op_node op content children :
  op ≠ "html" →
  has_unknown_op (VObj op content children)
  = negb (known_op op)
    || match children with
       | Some cs => existsb has_unknown_op cs
       | None => false
       end.
Proof. intros Hop. cbn [has_unknown_op]. by destruct (String.eqb_spec op "html"). Qed.

Lemma well_shaped_node op content cs :
  op ≠ "html" →
  well_shaped (VObj op content (Some cs))
  = forallb well_shaped cs
    && (if String.eqb op "+" then negb (bool_decide (cs = [])) else true).
Proof. intros Hop. cbn [well_shaped]. by destruct (String.eqb_spec op "html"). Qed.

(** The exceptions of [appendToDOM]: those of the engine, that of [toNode],
    and that of the [default] branch, which names an unknown operator. *)
Lemma appendToDOM_throws t :
  ∀ opt_stats e, appendToDOM measure t opt_stats = Throw e →
    e = TypeError ∨ e = Error VOther
    ∨ ∃ op, known_op op = false ∧ e = Error (VStr op).
Proof.
  induction t as [s|op content|op content cs IH|] using value_ind';
    intros opt_stats e Hrun; try discriminate.
  - cbn in Hrun. destruct (String.eqb op "html"); [discriminate|].
    injection Hrun as <-. by left.
  - destruct (String.eqb_spec op "html") as [->|Hop]; [discriminate|].
    rewrite appendToDOM_node in Hrun by done.
    destruct (attach measure cs) as [kids|e'] eqn:Hkids;
      cbn [mbind result_bind] in Hrun.
    + destruct (layout measure op kids) as [div|e'] eqn:Hd; [discriminate|].
      injection Hrun as ->. unfold layout in Hd.
      destruct (String.eqb op "|") eqn:H1; [discriminate|].
      destruct (String.eqb op "+") eqn:H2.
      { destruct kids; [|discriminate]. injection Hd as <-. by left. }
      destruct (String.eqb op ".") eqn:H3; [discriminate|].
      injection Hd as <-. right. right. exists op. split; [|done].
      unfold known_op. rewrite H1, H2, H3.
      by destruct (String.eqb_spec op "html").
    + injection Hrun as ->. apply mapM_Throw_inv in Hkids as (c & Hc & He).
      rewrite Forall_forall in IH.
      destruct (appendToDOM measure c None) as [r|e'] eqn:Hr; [discriminate|].
      injection He as ->. by eapply IH.
  - injection Hrun as <-. right. by left.
Qed.

(** A tree with an unknown operator is not laid out, whatever else is in
    it. *)
Lemma appendToDOM_unknown_throws t :
  has_unknown_op t = true →
  ∀ opt_stats, ∃ e, appendToDOM measure t opt_stats = Throw e.
Proof.
  induction t as [s|op content|op content cs IH|] using value_ind';
    intros Ht opt_stats; try discriminate.
  - cbn in *. destruct (String.eqb op "html"); [discriminate|eauto].
  - destruct (String.eqb_spec op "html") as [->|Hop]; [discriminate|].
    rewrite has_unknown_op_node in Ht by done.
    rewrite appendToDOM_node by done.
    destruct (attach measure cs) as [kids|e] eqn:Hkids; cbn [mbind result_bind];
      [|eauto].
    destruct (known_op op) eqn:Hk; cbn [negb orb] in Ht.
    + exfalso. apply existsb_elem in Ht as (c & Hc & Hu).
      rewrite Forall_forall in IH.
      destruct (mapM_Throw (λ c, r ← appendToDOM measure c None; OK r.1) cs c Hc)
        as [e He].
      * destruct (IH c Hc Hu None) as [e ->]. eauto.
      * unfold attach in Hkids. congruence.
    + rewrite layout_unknown by done. eauto.
Qed.

Lemma attach_outcome cs :
  Forall (λ c, ∀ opt_stats, outcome measure c opt_stats) cs →
  if existsb has_unknown_op cs
  then ∃ op, known_op op = false ∧ attach measure cs = Throw (Error (VStr op))
  else ∃ kids, attach measure cs = OK kids ∧ length kids = length cs.
Proof.
  induction 1 as [|c cs Hc _ IH]; cbn [existsb].
  - by exists [].
  - specialize (Hc None). unfold outcome in Hc. unfold attach. cbn [mapM].
    destruct (has_unknown_op c); cbn [orb].
    + destruct Hc as (op & Hop & ->). eauto.
    + destruct Hc as ([d s'] & ->). cbn [mbind result_bind fst].
      fold (attach measure cs).
      destruct (existsb has_unknown_op cs).
      * destruct IH as (op & Hop & ->). eauto.
      * destruct IH as (kids & -> & Hlen). eexists. split; [done|]. cbn. by rewrite Hlen.
Qed.

Lemma appendToDOM_outcome t :
  well_shaped t = true → ∀ opt_stats, outcome measure t opt_stats.
Proof.
  induction t as [s|op content|op content cs IH|] using value_ind';
    intros Ht opt_stats; try discriminate; unfold outcome.
  - cbn. eauto.
  - cbn in *. destruct (String.eqb op "html"); [eauto|discriminate].
  - destruct (String.eqb_spec op "html") as [->|Hop]; [cbn; eauto|].
    rewrite well_shaped_node in Ht by done.
    apply andb_prop in Ht as [Hcs Hplus]. apply forallb_Forall in Hcs.
    rewrite has_unknown_op_node, appendToDOM_node by done.
    assert (Forall (λ c, ∀ opt_stats, outcome measure c opt_stats) cs) as Hall.
    { rewrite Forall_forall in IH, Hcs. apply Forall_forall. intros c Hc.
      by apply IH, Hcs. }
    apply attach_outcome in Hall.
    destruct (existsb has_unknown_op cs).
    + rewrite orb_true_r. destruct Hall as (op' & Hop' & ->). eauto.
    + rewrite orb_false_r. destruct Hall as (kids & -> & Hlen).
      cbn [mbind result_bind]. destruct (known_op op) eqn:Hk; cbn [negb].
      * destruct (layout_known op kids Hk Hop) as [div ->]; [|cbn; eauto].
        intros ->. cbn in Hplus. intros ->. destruct cs; [|done].
        by rewrite bool_decide_eq_true_2 in Hplus.
      * rewrite layout_unknown by done. eauto.
Qed.

End Unknown.

(** What the builders return is in order and has no unknown operator. *)
Lemma api_value_well_shaped v :
  api_value v → well_shaped v = true ∧ has_unknown_op v = false.
Proof.
  apply (api_value_closed (λ v, well_shaped v = true ∧ has_unknown_op v = false)).
  - done.
  - done.
  - intros op content cs Hop.
    rewrite well_shaped_node, has_unknown_op_node
      by (destruct Hop as [-> | ->]; discriminate).
    intros [[Hw _]%andb_prop [_ Hu]%orb_false_elim].
    apply forallb_Forall in Hw. apply existsb_Forall in Hu.
    apply Forall_forall. rewrite Forall_forall in Hw, Hu. auto.
  - intros op items Hop Hitems _ _ _.
    rewrite well_shaped_node, has_unknown_op_node
      by (destruct Hop as [-> | ->]; discriminate).
    split.
    + apply andb_true_intro. split.
      * apply forallb_Forall. eapply Forall_impl; [exact Hitems|]. by intros ? [? _].
      * by destruct Hop as [-> | ->].
    + apply orb_false_intro; [by destruct Hop as [-> | ->]|].
      apply existsb_Forall. eapply Forall_impl; [exact Hitems|]. by intros ? [_ ?].
  - intros child [Hw Hu]. unfold many.
    rewrite well_shaped_node, has_unknown_op_node by discriminate.
    cbn [forallb existsb]. rewrite Hw, Hu. done.
Qed.

(** C8 fails for an unknown node without an array of children:
    [node.children.length] throws a [TypeError] before the [switch] is
    reached, so that what is thrown is not the [Error] of the [default]
    branch. *)
Lemma unknown_op_without_children :
  has_unknown_op (VObj "?" None None) = true
  ∧ ∀ measure opt_stats,
      appendToDOM measure (VObj "?" None None) opt_stats = Throw TypeError
      ∧ ¬ ∃ arg, appendToDOM measure (VObj "?" None None) opt_stats
                 = Throw (Error arg).
Proof.
  split; [reflexivity|]. intros measure opt_stats.
  split; [reflexivity|]. intros [arg Harg]. discriminate Harg.
Qed.

(** C8, as the code has it.  A tree that holds a node with an unknown
    operator is not laid out:
    [appendToDOM] throws, and what it throws is [Error(op)] for an unknown
    operator [op] when the tree is otherwise in order (if it is not, the
    exception can also be that of a missing array of children or that of
    [toNode]).  The values that the builders return are laid out, so that
    for them nothing is thrown. *)
Theorem unknown_op_throws :
  (∀ measure t opt_stats,
     has_unknown_op t = true →
     ∃ e, appendToDOM measure t opt_stats = Throw e
          ∧ (e = TypeError ∨ e = Error VOther
             ∨ ∃ op, known_op op = false ∧ e = Error (VStr op)))
  ∧ (∀ measure t opt_stats,
       well_shaped t = true → has_unknown_op t = true →
       ∃ op, known_op op = false
             ∧ appendToDOM measure t opt_stats = Throw (Error (VStr op)))
  ∧ (∀ measure t opt_stats,
       api_value t → ∃ r, appendToDOM measure t opt_stats = OK r).
Proof.
  split; [|split].
  - intros measure t opt_stats Ht.
    destruct (appendToDOM_unknown_throws measure t Ht opt_stats) as [e He].
    exists e. split; [done|]. by eapply appendToDOM_throws.
  - intros measure t opt_stats Hw Hu.
    pose proof (appendToDOM_outcome measure t Hw opt_stats) as H.
    unfold outcome in H. by rewrite Hu in H.
  - intros measure t opt_stats [Hw Hu]%api_value_well_shaped.
    pose proof (appendToDOM_outcome measure t Hw opt_stats) as H.
    unfold outcome in H. by rewrite Hu in H.
Qed.

Lemma unknown_op_throws_witness :
  (∃ e, appendToDOM sample_measure
          (Sequence [Leaf "a"; VObj "?" None (Some [])]) None = Throw e
        ∧ (e = TypeError ∨ e = Error VOther
           ∨ ∃ op, known_op op = false ∧ e = Error (VStr op)))
  ∧ (∃ op, known_op op = false
           ∧ appendToDOM sample_measure
               (Sequence [Leaf "a"; VObj "?" None (Some [])]) None
             = Throw (Error (VStr op)))
  ∧ (∃ r, appendToDOM sample_measure (many (VStr "a")) None = OK r).
Proof.
  split; [|split].
  - exact (proj1 unknown_op_throws sample_measure
             (Sequence [Leaf "a"; VObj "?" None (Some [])]) None eq_refl).
  - exact (proj1 (proj2 unknown_op_throws) sample_measure
             (Sequence [Leaf "a"; VObj "?" None (Some [])]) None eq_refl eq_refl).
  - apply (proj2 (proj2 unknown_op_throws)). apply api_many, api_text.
Defined.

(** ** The layout pass: positions in a Choice *)

Lemma zip_with_imap {A B C} (f : A → B → C) (g : nat → A → B) (l : list A) :
  zip_with f l (imap g l) = imap (λ i x, f x (g i x)) l.
Proof.
  revert g. induction l as [|x l IH]; intros g; [done|].
  cbn. f_equal. apply IH.
Qed.

Lemma flat_map_imap {A B C} (f : B → list C) (g : nat → A → B) (l : list A) :
  flat_map f (imap g l) = concat (imap (λ i x, f (g i x)) l).
Proof.
  revert g. induction l as [|x l IH]; intros g; [done|].
  cbn. f_equal. apply IH.
Qed.

Lemma elem_le_sum_list (x : Z) (l : list Z) :
  Forall (λ y, 0 ≤ y) l → x ∈ l → x ≤ sum_list l.
Proof.
  induction 1 as [|y l Hy Hl IH]; intros Hin.
  - by apply elem_of_nil in Hin.
  - rewrite sum_list_cons. apply sum_list_nonneg in Hl as Hs.
    apply elem_of_cons in Hin as [->|Hin]; [lia|]. specialize (IH Hin). lia.
Qed.

Section Positions.

Variable measure : string → bool → N * N.


(** The rows of the second loop, with the running height written as a sum. *)
Lemma or_rows_rows width i rest height :
  (or_rows measure width i rest height).1
  = imap (λ j k,
            let top := (if (i =? 0)%nat then height else height + 16)
                       + option_top measure rest j in
            Row top (shr (width - offsetWidth measure k) 1)
                (shr (width - offsetWidth measure k) 1 + offsetWidth measure k)
                (top + shr (offsetHeight measure k) 1)) rest.
Proof.
  revert i height. induction rest as [|c rest IH]; intros i height; [done|].
  cbn [or_rows]. specialize (IH (S i) ((if (i =? 0)%nat then height else height + 16)
                                       + offsetHeight measure c)).
  destruct (or_rows measure width (S i) rest _) as [rows h]. cbn [fst] in *.
  rewrite imap_cons. f_equal.
  - cbv zeta. unfold option_top. cbn [take fmap list_fmap sum_list foldr].
    f_equal; lia.
  - rewrite IH. apply imap_ext. intros j k _. cbn [Nat.eqb]. cbv zeta. unfold compose.
    unfold option_top. cbn [take]. rewrite fmap_cons, sum_list_cons.
    f_equal; lia.
Qed.

Lemma layout_or_positions kids :
  Forall (sized measure) kids →
  let div := layout_or measure kids in
  let W := offsetWidth measure div in
  let H := offsetHeight measure div in
  W < 2 ^ 31 → H < 2 ^ 31 →
  div = BoxDiv
          (imap (λ i k, (k, Some (option_left measure W k, option_top measure kids i))) kids)
          (concat (imap (connectors measure kids W (H `div` 2)) kids))
          W H.
Proof.
  intros Hkids. cbv zeta.
  destruct (layout_or_size measure kids) as [Hw Hh]. rewrite Hw, Hh. clear Hw.
  pose proof (layout_sized measure "|" kids _ Hkids eq_refl) as [_ HH0].
  rewrite Hh in HH0. clear Hh.
  assert (∀ k, k ∈ kids →
            offsetHeight measure k ≤ (or_rows measure (or_width measure kids) 0 kids 0).2)
    as Hle.
  { intros k Hk. destruct kids as [|k0 ks]; [by apply elem_of_nil in Hk|].
    rewrite or_rows_height.
    assert (offsetHeight measure k ≤ sum_list (offsetHeight measure <$> k0 :: ks)); [|lia].
    apply elem_le_sum_list; [|by apply list_elem_of_fmap_2].
    apply Forall_fmap. eapply Forall_impl; [exact Hkids|]. by intros ? [_ ?]. }
  destruct (or_width_spec measure kids) as (_ & Hall & _).
  pose proof (or_rows_rows (or_width measure kids) 0 kids 0) as Hrows.
  unfold layout_or.
  set (W := or_width measure kids) in *.
  destruct (or_rows measure W 0 kids 0) as [rows h]. cbn [fst snd] in *.
  intros HW HH.
  assert (∀ k, k ∈ kids → 0 ≤ W - offsetWidth measure k < 2 ^ 31 ∧ 0 ≤ offsetHeight measure k < 2 ^ 31)
    as Hbounds.
  { intros k Hk. rewrite Forall_forall in Hall, Hkids.
    specialize (Hall k Hk). destruct (Hkids k Hk) as [Hkw Hkh].
    specialize (Hle k Hk). lia. }
  rewrite shr_1 by lia. f_equal.
  - rewrite Hrows, zip_with_imap. apply imap_ext. intros i k Hk.
    apply list_elem_of_lookup_2 in Hk. destruct (Hbounds k Hk) as [Hb1 Hb2].
    cbn [Nat.eqb leftX row_top]. cbv zeta. cbn [leftX row_top].
    unfold option_left. rewrite shr_1 by lia. do 3 f_equal.
  - rewrite Hrows, flat_map_imap. f_equal. apply imap_ext. intros i k Hk.
    apply list_elem_of_lookup_2 in Hk. destruct (Hbounds k Hk) as [Hb1 Hb2].
    cbn [Nat.eqb]. cbv zeta. unfold or_arrows, connectors.
    cbn [leftX rightX childYCenter]. unfold option_center, option_left.
    rewrite !shr_1 by lia. rewrite !Z.add_0_l. reflexivity.
Qed.

(** The two spans of a connector that changes height. *)
Lemma rightArrow_bend x width y height j :
  height ≠ 0 →
  ∃ l r,
    rightArrow x width y height (Some j) = [l; r]
    ∧ span_left l = x ∧ span_left l + span_width l = j
    ∧ span_left r = j ∧ span_left r + span_width r = x + width
    ∧ (0 < height → span_top l = y ∧ span_top r + span_height r = y + height)
    ∧ (height < 0 → span_top l + span_height l = y ∧ span_top r = y + height).
Proof.
  intros Hh. unfold rightArrow.
  destruct (Z.eqb_spec height 0) as [|_]; [done|].
  eexists _, _. split; [reflexivity|].
  destruct (Z.gtb_spec height 0); cbn; repeat split; lia.
Qed.

End Positions.

(** C7.  In a Choice whose options were attached as [kids], and whose width
    [W] and height [H] fit in 32 bits: option [i] is placed at the top that
    starts at 0 and advances by the height of each option plus 16, and at
    the left [(W - w_i) / 2]; its entry connector is the arrow from
    [(0, H/2)] to its left edge at the height of its centre, with the
    junction at 8, and its exit connector the arrow from its right edge to
    [(W, H/2)] with the junction at [W - 8].  An arrow that changes height
    consists of a span from its start to the junction and a span from the
    junction to its end. *)
Theorem choice_positions :
  (∀ measure content cs kids opt_stats,
     attach measure cs = OK kids →
     let div := layout_or measure kids in
     let W := offsetWidth measure div in
     let H := offsetHeight measure div in
     W < 2 ^ 31 → H < 2 ^ 31 →
     (∃ st', appendToDOM measure (VObj "|" content (Some cs)) opt_stats = OK (div, st'))
     ∧ div = BoxDiv
               (imap (λ i k, (k, Some (option_left measure W k,
                                       option_top measure kids i))) kids)
               (concat (imap (connectors measure kids W (H `div` 2)) kids))
               W H)
  ∧ (∀ measure kids,
       option_top measure kids 0 = 0
       ∧ ∀ i k, kids !! i = Some k →
           option_top measure kids (S i)
           = option_top measure kids i + (offsetHeight measure k + 16))
  ∧ (∀ x width y height j,
       height ≠ 0 →
       ∃ l r,
         rightArrow x width y height (Some j) = [l; r]
         ∧ span_left l = x ∧ span_left l + span_width l = j
         ∧ span_left r = j ∧ span_left r + span_width r = x + width
         ∧ (0 < height → span_top l = y ∧ span_top r + span_height r = y + height)
         ∧ (height < 0 → span_top l + span_height l = y ∧ span_top r = y + height))
  ∧ (∀ x width y j, rightArrow x width y 0 j = [Span x y width 1 Rule]).
Proof.
  split; [|split; [|split]].
  - intros measure content cs kids opt_stats Hkids div W H HW HH. split.
    + rewrite appendToDOM_node by discriminate. rewrite Hkids.
      cbn [mbind result_bind]. unfold layout.
      cbn [String.eqb Ascii.eqb Bool.eqb]. eauto.
    + apply layout_or_positions; [|done..]. by eapply attach_sized.
  - intros measure kids. split; [reflexivity|]. intros i k Hk.
    unfold option_top. rewrite (take_S_r _ _ _ Hk), fmap_app, sum_list_app.
    cbn [fmap list_fmap]. rewrite sum_list_cons. cbn. lia.
  - apply rightArrow_bend.
  - reflexivity.
Qed.

Lemma choice_positions_witness :
  (∃ st',
     appendToDOM sample_measure (Choice [Leaf "p"; Leaf "q"]) None
     = OK (layout_or sample_measure [LeafDiv "p" false; LeafDiv "q" false], st'))
  ∧ layout_or sample_measure [LeafDiv "p" false; LeafDiv "q" false]
    = BoxDiv [(LeafDiv "p" false, Some (21, 0)); (LeafDiv "q" false, Some (16, 26))]
        ([Span 0 14 8 9 BottomRightCorner; Span 8 5 13 9 TopLeftCorner;
          Span 61 5 13 9 TopRightCorner; Span 74 14 8 9 BottomLeftCorner]
         ++ [Span 0 23 8 7 TopRightCorner; Span 8 30 8 6 BottomLeftCorner;
             Span 66 29 8 7 BottomRightCorner; Span 74 23 8 7 TopLeftCorner]
         ++ [])
        82 46.
Proof.
  refine (proj1 choice_positions sample_measure None [Leaf "p"; Leaf "q"]
            [LeafDiv "p" false; LeafDiv "q" false] None eq_refl _ _);
    vm_compute; reflexivity.
Defined.

(** ** More on [each] *)

Lemma foldM_Throw_elem {A S} (f : A → S → result S) l a :
  a ∈ l → (∀ s, ∃ e, f a s = Throw e) → ∀ s, ∃ e, foldM f l s = Throw e.
Proof.
  intros Hin Ha. induction Hin as [a l|a b l _ IH]; intros s; cbn.
  - destruct (Ha s) as [e ->]. eauto.
  - destruct (f b s); [by apply IH|eauto].
Qed.

(** What [addItem] does, in one equation. *)
Lemma addItem_seq_items v :
  (seq_ok v = true → ∀ items, addItem v items = OK (items ++ seq_items v))
  ∧ (seq_ok v = false → ∀ items, ∃ e, addItem v items = Throw e).
Proof.
  induction v as [s|op content|op content cs IH|] using value_ind'.
  - split; [|discriminate]. reflexivity.
  - cbn. destruct (String.eqb op "."); split; try discriminate; eauto.
  - cbn [seq_ok seq_items addItem].
    destruct (String.eqb op "."); [|split; [reflexivity|discriminate]].
    induction IH as [|c cs [Hc1 Hc2] _ IHcs]; cbn [forallb flat_map foldM].
    + split; [|discriminate]. intros _ items. by rewrite app_nil_r.
    + destruct IHcs as [IH1 IH2]. destruct (seq_ok c).
      * cbn [andb]. split.
        -- intros Hcs items. rewrite Hc1 by done. rewrite IH1 by done.
           by rewrite app_assoc.
        -- intros Hcs items. rewrite Hc1 by done. by apply IH2.
      * split; [discriminate|]. intros _ items.
        destruct (Hc2 eq_refl items) as [e ->]. eauto.
  - split; [discriminate|]. cbn. eauto.
Qed.

Lemma foldM_addItem_items arguments :
  (forallb seq_ok arguments = true →
     ∀ items, foldM addItem arguments items
              = OK (items ++ flat_map seq_items arguments))
  ∧ (forallb seq_ok arguments = false →
       ∀ items, ∃ e, foldM addItem arguments items = Throw e).
Proof.
  induction arguments as [|a l [IH1 IH2]]; cbn [forallb flat_map foldM].
  - split; [|discriminate]. intros _ items. by rewrite app_nil_r.
  - destruct (addItem_seq_items a) as [Ha1 Ha2]. destruct (seq_ok a).
    + cbn [andb]. split.
      * intros Hl items. rewrite Ha1 by done. rewrite IH1 by done.
        by rewrite app_assoc.
      * intros Hl items. rewrite Ha1 by done. by apply IH2.
    + split; [discriminate|]. intros _ items.
      destruct (Ha2 eq_refl items) as [e ->]. eauto.
Qed.

(** X1.  [each] succeeds exactly on the arguments that are texts and nodes
    whose Sequences have their arrays of children, and then it returns the
    elements of the arguments in order, Sequences among the arguments
    replaced by their elements at every depth: the list itself when it has
    one element, else the Sequence of the list. *)
Theorem each_collects (arguments : list value) :
  if forallb seq_ok arguments
  then each arguments = OK (collapse "." (flat_map seq_items arguments))
  else ∃ e, each arguments = Throw e.
Proof.
  unfold each. destruct (foldM_addItem_items arguments) as [H1 H2].
  destruct (forallb seq_ok arguments).
  - by rewrite H1.
  - destruct (H2 eq_refl []) as [e ->]. eauto.
Qed.

(** The elements collected by [each] are nodes other than Sequences. *)
Lemma each_items_flat arguments items items' :
  Forall (λ v, is_node v = true ∧ has_op "." v = false) items →
  foldM addItem arguments items = OK items' →
  Forall (λ v, is_node v = true ∧ has_op "." v = false) items'.
Proof.
  intros Hitems Hrun.
  refine (each_loop_kept "." (λ _, True) _ _ _ arguments items items' eq_refl _ Hitems Hrun).
  - intros _ cs _. by apply Forall_true.
  - intros v n _ Hv Hn. split; [by eapply toNode_is_node|].
    by eapply toNode_has_op.
  - by apply Forall_true.
Qed.

Lemma seq_items_flat items :
  Forall (λ v, is_node v = true ∧ has_op "." v = false) items →
  forallb seq_ok items = true ∧ flat_map seq_items items = items.
Proof.
  induction 1 as [|v l [Hn Hop] _ [IH1 IH2]]; [done|].
  destruct v as [|op content children|]; try discriminate.
  cbn [has_op] in Hop. cbn [forallb flat_map seq_ok seq_items].
  rewrite Hop. cbn. by rewrite IH1, IH2.
Qed.

(** Adding what [each] returned to the empty array gives the elements
    again. *)
Lemma addItem_collapse items :
  Forall (λ v, is_node v = true ∧ has_op "." v = false) items →
  addItem (collapse "." items) [] = OK items.
Proof.
  intros Hitems. destruct (seq_items_flat items Hitems) as [Hok Hflat].
  destruct (collapse_cases "." items) as [Hone|[_ ->]].
  - rewrite Hone in Hok, Hflat. cbn [forallb flat_map] in Hok, Hflat.
    rewrite andb_true_r in Hok. rewrite app_nil_r in Hflat.
    rewrite (proj1 (addItem_seq_items _) Hok), Hflat. cbn [app]. by rewrite <- Hone.
  - rewrite addItem_seq. by rewrite (proj1 (foldM_addItem_items items) Hok), Hflat.
Qed.

(** X2.  [each] is flattening for all arguments, texts included, and
    exceptions included: [each(each(a, b), c)] is [each(a, b, c)]. *)
Theorem each_flattens (a b c : value) :
  (ab ← each [a; b]; each [ab; c]) = each [a; b; c].
Proof.
  unfold each. change [a; b; c] with ([a; b] ++ [c]). rewrite foldM_app.
  destruct (foldM addItem [a; b] []) as [items|e] eqn:Hab;
    unfold mbind, result_bind; [|reflexivity].
  cbn [foldM]. rewrite addItem_collapse; [reflexivity|].
  eapply each_items_flat; [constructor|exact Hab].
Qed.

(** X3.  What [each] returns is a fixed point of [each]: wrapping a result
    in a further call changes nothing. *)
Theorem each_idempotent (arguments : list value) (v : value) :
  each arguments = OK v → each [v] = OK v.
Proof.
  unfold each. intros Hv.
  destruct (foldM addItem arguments []) as [items|] eqn:Hrun; [|discriminate].
  injection Hv as <-. cbn [foldM]. rewrite addItem_collapse; [reflexivity|].
  eapply each_items_flat; [constructor|exact Hrun].
Qed.

Lemma each_idempotent_witness :
  each [Sequence [Leaf "a"; Leaf "b"]] = OK (Sequence [Leaf "a"; Leaf "b"]).
Proof.
  apply (each_idempotent [VStr "a"; Sequence [VStr "b"]]). reflexivity.
Defined.

(** ** More on [or] *)

Lemma exact_or_loop arguments st :
  Forall (λ a, splices_nodes a = true) arguments →
  foldM addOption arguments (OrState [] ∅) = OK st → exact st.
Proof.
  intros Hargs Hrun.
  eapply (foldM_invariant addOption exact arguments); [|apply exact_init|exact Hrun].
  eapply Forall_impl; [exact Hargs|]. intros a Ha. by apply addOption_exact.
Qed.

Lemma alt_items_flat opts :
  Forall not_alt opts → flat_map alt_items opts = opts.
Proof.
  induction 1 as [|v l (op & content & children & -> & Hop) _ IH]; [done|].
  cbn [flat_map alt_items]. destruct (String.eqb_spec op "|"); [done|].
  cbn. by rewrite IH.
Qed.

(** The candidates of what [or] returns are the options it collected. *)
Lemma alt_items_collapse opts :
  Forall not_alt opts → alt_items (collapse "|" opts) = opts.
Proof.
  intros Hopts. destruct (collapse_cases "|" opts) as [Hone|[_ ->]].
  - pose proof (alt_items_flat opts Hopts) as Hflat.
    rewrite Hone in Hflat at 1. cbn [flat_map] in Hflat.
    by rewrite app_nil_r in Hflat.
  - cbn. by apply alt_items_flat.
Qed.

(** X4.  Among node arguments [or] is idempotent: a further call on what it
    returned returns the same. *)
Theorem or_idempotent (arguments : list value) (v : value) :
  Forall (λ a, splices_nodes a = true) arguments →
  or arguments = OK v → or [v] = OK v.
Proof.
  unfold or. intros Hargs Hv.
  destruct (foldM addOption arguments (OrState [] ∅)) as [st|] eqn:Hrun;
    [|discriminate]. injection Hv as <-.
  cbn [foldM]. rewrite addOption_collapse; [reflexivity|].
  by eapply exact_or_loop.
Qed.

Lemma or_idempotent_witness :
  or [Choice [Leaf "a"; Repeat [VStr "a"]]]
  = OK (Choice [Leaf "a"; Repeat [VStr "a"]]).
Proof.
  apply (or_idempotent [Leaf "a"; Choice [Repeat [VStr "a"]; Leaf "a"]]);
    [repeat constructor | reflexivity].
Defined.

(** X5.  Among node arguments the leaves that [or] returns as options have
    pairwise different contents, and none has the content "__proto__". *)
Theorem or_leaves_distinct (arguments : list value) (v : value) :
  Forall (λ a, splices_nodes a = true) arguments →
  or arguments = OK v →
  NoDup (leaf_keys (alt_items v)) ∧ "__proto__" ∉ leaf_keys (alt_items v).
Proof.
  unfold or. intros Hargs Hv.
  destruct (foldM addOption arguments (OrState [] ∅)) as [st|] eqn:Hrun;
    [|discriminate]. injection Hv as <-.
  destruct (exact_or_loop arguments st Hargs Hrun) as [Ha Hd Hp _].
  by rewrite alt_items_collapse.
Qed.

Lemma or_leaves_distinct_witness :
  NoDup (leaf_keys (alt_items (Choice [Leaf "a"; Repeat [VStr "a"]])))
  ∧ "__proto__" ∉ leaf_keys (alt_items (Choice [Leaf "a"; Repeat [VStr "a"]])).
Proof.
  apply (or_leaves_distinct [Leaf "a"; Choice [Repeat [VStr "a"]; Leaf "a"]]);
    [repeat constructor | reflexivity].
Defined.

(** X6.  [any(x)] is the Choice of the bypass leaf and the Repeat of [x] for
    every [x] whatsoever: it never throws and never collapses. *)
Theorem any_two_options (x : value) :
  any x = OK (Choice [Leaf "▶"; Repeat [x]]).
Proof.
  unfold any, maybe, many, or, toNode, mbind, result_bind. cbn [foldM].
  rewrite addOption_html. cbn [alreadySeen ToString].
  rewrite decide_False by set_solver. cbn [String.eqb Ascii.eqb Bool.eqb].
  rewrite addOption_other by discriminate. reflexivity.
Qed.

(** No call of [addOption] stores the key "__proto__". *)
Lemma addOption_no_proto child :
  ∀ st st', "__proto__" ∉ alreadySeen st → addOption child st = OK st' →
            "__proto__" ∉ alreadySeen st'.
Proof.
  induction child as [s|op content|op content cs IH|] using value_ind';
    intros st st' Hst Hrun.
  all: match goal with
       | H : addOption ?v _ = _ |- _ => destruct (has_op "|" v) eqn:Hflat
       end.
  all: try discriminate Hflat.
  all: try (apply String.eqb_eq in Hflat as ->).
  2: discriminate Hrun.
  3: { rewrite addOption_alt in Hrun.
       by eapply (foldM_invariant addOption (λ st, "__proto__" ∉ alreadySeen st) cs). }
  all: match goal with
       | H : addOption ?v _ = _ |- _ => destruct v as [s'|op' content' children'|] eqn:Hv
       end; try discriminate Hv; try discriminate Hrun.
  all: try (injection Hrun as <-; exact Hst).
  all: cbn [has_op] in Hflat; apply String.eqb_neq in Hflat.
  all: destruct (String.eqb_spec op' "html") as [->|Hh];
         [|rewrite addOption_other in Hrun by done; by injection Hrun as <-].
  all: rewrite addOption_html in Hrun; case_decide; [by injection Hrun as <-|].
  all: destruct (String.eqb_spec (ToString content') "__proto__") as [|Hk];
         [discriminate|].
  all: injection Hrun as <-; cbn [alreadySeen]; set_solver.
Qed.

(** X7.  A leaf node with the content "__proto__" cannot be an option:
    wherever it stands among the arguments, once the arguments before it
    are accepted, [or] throws a [TypeError].  So does [maybe] for it and for
    the text "__proto__", while [or] accepts the text. *)
Theorem leaf_proto_throws :
  (∀ before after children v,
     or before = OK v →
     or (before ++ VObj "html" (Some "__proto__") children :: after)
     = Throw TypeError)
  ∧ (∀ x children,
       toNode x = OK (VObj "html" (Some "__proto__") children) →
       maybe x = Throw TypeError)
  ∧ or [VStr "__proto__"] = OK (Leaf "__proto__").
Proof.
  assert (∀ before after children st,
            foldM addOption before (OrState [] ∅) = OK st →
            or (before ++ VObj "html" (Some "__proto__") children :: after)
            = Throw TypeError) as Hthrow.
  { intros before after children st Hrun. unfold or.
    rewrite foldM_app, Hrun. unfold mbind, result_bind. cbn [foldM].
    rewrite addOption_html. cbn [ToString]. rewrite decide_False; [done|].
    refine (foldM_invariant addOption (λ st, "__proto__" ∉ alreadySeen st) before
              _ (OrState [] ∅) st _ Hrun).
    - apply Forall_forall. intros c _. apply addOption_no_proto.
    - cbn. set_solver. }
  split; [|split; [|reflexivity]].
  - intros before after children v Hv. unfold or in Hv.
    destruct (foldM addOption before (OrState [] ∅)) as [st|] eqn:Hrun;
      [|discriminate]. by eapply Hthrow.
  - intros x children Hx. unfold maybe. rewrite Hx.
    cbn [toNode mbind result_bind].
    apply (Hthrow [Leaf "▶"] [] children
             (OrState [Leaf "▶"] ({["▶"]} ∪ ∅))).
    cbn [foldM]. rewrite addOption_html. cbn [alreadySeen ToString].
    by rewrite decide_False by set_solver.
Qed.

Lemma leaf_proto_throws_witness :
  or ([VStr "a"] ++ [Leaf "__proto__"]) = Throw TypeError
  ∧ maybe (VStr "__proto__") = Throw TypeError.
Proof.
  split.
  - apply (proj1 leaf_proto_throws [VStr "a"] [] None (Leaf "a")). reflexivity.
  - apply (proj1 (proj2 leaf_proto_throws) (VStr "__proto__") None). reflexivity.
Defined.

Lemma leaf_keys_one_leaf content children :
  leaf_keys [VObj "html" content children] = [ToString content].
Proof. reflexivity. Qed.

Lemma leaf_keys_one_other op content children :
  op ≠ "html" → leaf_keys [VObj op content children] = [].
Proof. intros Hop. cbn. by destruct (String.eqb_spec op "html"). Qed.

Lemma foldM_addOption_adds l :
  Forall (λ child, ∀ st st',
    alreadySeen st ⊆ list_to_set (leaf_keys (options st)) →
    addOption child st = OK st' →
    ∃ new, options st' = options st ++ new
      ∧ new `sublist_of` alt_items child
      ∧ alreadySeen st' ⊆ list_to_set (leaf_keys (options st'))
      ∧ (∀ k, k ∈ leaf_keys (alt_items child) → k ∈ leaf_keys (options st'))
      ∧ filter (λ v, has_op "html" v = false) new
        = filter (λ v, has_op "html" v = false) (alt_items child)) l →
  ∀ st st',
    alreadySeen st ⊆ list_to_set (leaf_keys (options st)) →
    foldM addOption l st = OK st' →
    ∃ new, options st' = options st ++ new
      ∧ new `sublist_of` flat_map alt_items l
      ∧ alreadySeen st' ⊆ list_to_set (leaf_keys (options st'))
      ∧ (∀ k, k ∈ leaf_keys (flat_map alt_items l) → k ∈ leaf_keys (options st'))
      ∧ filter (λ v, has_op "html" v = false) new
        = filter (λ v, has_op "html" v = false) (flat_map alt_items l).
Proof.
  induction 1 as [|c l Hc _ IH]; intros st st' Hst Hrun; cbn [foldM flat_map] in *.
  - injection Hrun as <-. exists []. rewrite app_nil_r.
    split_and!; [done|done|done| |done]. intros k Hk. by apply elem_of_nil in Hk.
  - destruct (addOption c st) as [st1|] eqn:Hstep; [|discriminate].
    destruct (Hc st st1 Hst Hstep) as (new1 & Ho1 & Hs1 & Hi1 & Hk1 & Hf1).
    destruct (IH st1 st' Hi1 Hrun) as (new2 & Ho2 & Hs2 & Hi2 & Hk2 & Hf2).
    exists (new1 ++ new2). split_and!.
    + by rewrite Ho2, Ho1, app_assoc.
    + by apply sublist_app.
    + done.
    + intros k. rewrite leaf_keys_app, elem_of_app. intros [Hk|Hk]; [|by apply Hk2].
      rewrite Ho2, leaf_keys_app, elem_of_app. left. by apply Hk1.
    + by rewrite !filter_app, Hf1, Hf2.
Qed.

(** What a call of [addOption] adds to the options. *)
Lemma addOption_adds child :
  ∀ st st',
    alreadySeen st ⊆ list_to_set (leaf_keys (options st)) →
    addOption child st = OK st' →
    ∃ new, options st' = options st ++ new
      ∧ new `sublist_of` alt_items child
      ∧ alreadySeen st' ⊆ list_to_set (leaf_keys (options st'))
      ∧ (∀ k, k ∈ leaf_keys (alt_items child) → k ∈ leaf_keys (options st'))
      ∧ filter (λ v, has_op "html" v = false) new
        = filter (λ v, has_op "html" v = false) (alt_items child).
Proof.
  assert (∀ op content children st st',
            op ≠ "|" →
            alreadySeen st ⊆ list_to_set (leaf_keys (options st)) →
            addOption (VObj op content children) st = OK st' →
            ∃ new, options st' = options st ++ new
              ∧ new `sublist_of` [VObj op content children]
              ∧ alreadySeen st' ⊆ list_to_set (leaf_keys (options st'))
              ∧ (∀ k, k ∈ leaf_keys [VObj op content children] →
                      k ∈ leaf_keys (options st'))
              ∧ filter (λ v, has_op "html" v = false) new
                = filter (λ v, has_op "html" v = false) [VObj op content children])
    as Hflat.
  { intros op content children st st' Hop Hst Hrun.
    destruct (String.eqb_spec op "html") as [->|Hh].
    - rewrite addOption_html in Hrun. rewrite leaf_keys_one_leaf.
      case_decide as Hin.
      + injection Hrun as <-. exists []. rewrite app_nil_r.
        split_and!; [done|apply sublist_nil_l|done| |done].
        intros k ->%list_elem_of_singleton.
        apply Hst in Hin. by apply elem_of_list_to_set in Hin.
      + destruct (String.eqb (ToString content) "__proto__"); [discriminate|].
        injection Hrun as <-. cbn [options alreadySeen]. eexists.
        split_and!; [done|done| | |done].
        * rewrite leaf_keys_app, leaf_keys_one_leaf, list_to_set_app_L.
          cbn [list_to_set]. set_solver.
        * intros k ->%list_elem_of_singleton.
          rewrite leaf_keys_app, leaf_keys_one_leaf, elem_of_app.
          right. apply list_elem_of_here.
    - rewrite addOption_other in Hrun by done. injection Hrun as <-.
      cbn [options alreadySeen push_option]. eexists.
      split_and!; [done|done| | |done].
      + rewrite leaf_keys_app, leaf_keys_one_other, app_nil_r by done. done.
      + rewrite leaf_keys_one_other by done. intros k Hk. by apply elem_of_nil in Hk. }
  induction child as [s|op content|op content cs IH|] using value_ind';
    intros st st' Hst Hrun; try discriminate.
  - injection Hrun as <-. cbn [options alreadySeen push_option alt_items]. eexists.
    split_and!; [done|done| | |done].
    + rewrite leaf_keys_app, list_to_set_app_L. set_solver.
    + intros k ->%list_elem_of_singleton.
      rewrite leaf_keys_app, leaf_keys_one_leaf, elem_of_app.
      right. apply list_elem_of_here.
  - destruct (String.eqb_spec op "|") as [->|Hop]; [discriminate Hrun|].
    cbn [alt_items]. destruct (String.eqb_spec op "|"); [done|].
    by apply Hflat.
  - destruct (String.eqb_spec op "|") as [->|Hop].
    + rewrite addOption_alt in Hrun. cbn [alt_items String.eqb Ascii.eqb Bool.eqb].
      by apply (foldM_addOption_adds cs IH).
    + cbn [alt_items]. destruct (String.eqb_spec op "|"); [done|].
      by apply Hflat.
Qed.

(** X8.  The options that [or] returns come from its arguments, for all
    arguments: they are the candidates of the arguments, in their order,
    with some of them left out; only leaves are left out, and only leaves
    whose content is that of a leaf that was kept. *)
Theorem or_options_from_arguments (arguments : list value) (v : value) :
  or arguments = OK v →
  alt_items v `sublist_of` flat_map alt_items arguments
  ∧ filter (λ v, has_op "html" v = false) (alt_items v)
    = filter (λ v, has_op "html" v = false) (flat_map alt_items arguments)
  ∧ ∀ k, k ∈ leaf_keys (flat_map alt_items arguments) →
         k ∈ leaf_keys (alt_items v).
Proof.
  unfold or. intros Hv.
  destruct (foldM addOption arguments (OrState [] ∅)) as [st|] eqn:Hrun;
    [|discriminate]. injection Hv as <-.
  assert (Forall not_alt (options st)) as Hna.
  { refine (or_loop_kept "|" (λ _, True) not_alt _ _ arguments _ st eq_refl _ _ Hrun).
    - intros _ cs _. by apply Forall_true.
    - intros v n _ Hv Hn. destruct v as [s|op content children|]; try discriminate.
      + injection Hn as <-. by eexists _, _, _.
      + injection Hn as <-. cbn in Hv. apply String.eqb_neq in Hv.
        by eexists _, _, _.
    - by apply Forall_true.
    - constructor. }
  rewrite alt_items_collapse by done.
  destruct (foldM_addOption_adds arguments) with (st := OrState [] ∅) (st' := st)
    as (new & Ho & Hs & _ & Hk & Hf); [| |done|].
  - apply Forall_forall. intros c _. apply addOption_adds.
  - cbn. set_solver.
  - cbn [options app] in Ho. subst new. done.
Qed.

Lemma or_options_from_arguments_witness :
  alt_items (Choice [Leaf "a"; Leaf "b"])
    `sublist_of` flat_map alt_items [Leaf "a"; Choice [Leaf "b"; Leaf "a"]]
  ∧ filter (λ v, has_op "html" v = false) (alt_items (Choice [Leaf "a"; Leaf "b"]))
    = filter (λ v, has_op "html" v = false)
        (flat_map alt_items [Leaf "a"; Choice [Leaf "b"; Leaf "a"]])
  ∧ ∀ k, k ∈ leaf_keys (flat_map alt_items [Leaf "a"; Choice [Leaf "b"; Leaf "a"]]) →
         k ∈ leaf_keys (alt_items (Choice [Leaf "a"; Leaf "b"])).
Proof.
  apply (or_options_from_arguments [Leaf "a"; Choice [Leaf "b"; Leaf "a"]]).
  reflexivity.
Defined.

Lemma foldM_cons {A S} (f : A → S → result S) a l s :
  foldM f (a :: l) s = s' ← f a s; foldM f l s'.
Proof. reflexivity. Qed.

(** The state of [or] after the bypass leaf has been added as first
    argument. *)
Lemma addOption_bypass_first :
  addOption (Leaf "▶") (OrState [] ∅)
  = OK (OrState [Leaf "▶"] (list_to_set (leaf_keys [Leaf "▶"]))).
Proof.
  rewrite addOption_html. cbn [alreadySeen ToString].
  by rewrite decide_False by set_solver.
Qed.

Lemma addOption_bypass_again opts :
  addOption (Leaf "▶")
    (OrState (Leaf "▶" :: opts) (list_to_set (leaf_keys (Leaf "▶" :: opts))))
  = OK (OrState (Leaf "▶" :: opts) (list_to_set (leaf_keys (Leaf "▶" :: opts)))).
Proof.
  rewrite addOption_html. cbn [alreadySeen ToString].
  rewrite decide_True; [done|].
  change (Leaf "▶" :: opts) with ([Leaf "▶"] ++ opts).
  rewrite leaf_keys_app, list_to_set_app_L. cbn. set_solver.
Qed.

(** X9.  [maybe] is idempotent on texts and on the nodes whose Choices hold
    nodes, as all nodes made by the builders do: for them, making optional
    what is optional changes nothing. *)
Theorem maybe_idempotent (x v : value) :
  (∀ n, toNode x = OK n → splices_nodes n = true) →
  maybe x = OK v → maybe v = OK v.
Proof.
  intros Hx. unfold maybe. cbn [toNode]. unfold mbind at 1 3, result_bind at 1 3.
  destruct (toNode x) as [n|] eqn:Hn; unfold mbind, result_bind; [|discriminate].
  specialize (Hx n eq_refl). unfold or. cbn [foldM].
  rewrite addOption_bypass_first.
  destruct (addOption n _) as [st|] eqn:Hstep; [|discriminate].
  intros [= <-].
  assert (exact st) as [Ha Hd Hp Hs].
  { refine (addOption_exact n Hx _ st _ Hstep).
    split; cbn; [|apply NoDup_singleton|set_solver|reflexivity].
    repeat constructor. by eexists _, _, _. }
  assert (∃ new, options st = [Leaf "▶"] ++ new) as [new Ho].
  { pose proof (λ H, addOption_adds n _ st H Hstep) as Hadds.
    destruct Hadds as (new & Ho & _); [cbn; set_solver|]. by exists new. }
  cbn [options app] in Ho.
  assert (st = OrState (Leaf "▶" :: new)
                 (list_to_set (leaf_keys (Leaf "▶" :: new)))) as ->.
  { destruct st as [o a]. cbn in *. by subst. }
  cbn [options] in *.
  destruct new as [|o new]; cbn [collapse toNode].
  - rewrite (addOption_bypass_again []). reflexivity.
  - rewrite addOption_alt, foldM_cons, (addOption_bypass_again []).
    apply Forall_cons in Ha as [_ Ha].
    change (Leaf "▶" :: o :: new) with ([Leaf "▶"] ++ o :: new) in *.
    pose proof (addOption_replay (o :: new) [Leaf "▶"] Ha Hd) as Hre.
    cbv [mbind result_bind]. rewrite Hre; [reflexivity|].
    rewrite leaf_keys_app in Hp. intros Hin. apply Hp.
    apply elem_of_app. by right.
Qed.

Lemma maybe_idempotent_witness :
  maybe (Choice [Leaf "▶"; Leaf "x"]) = OK (Choice [Leaf "▶"; Leaf "x"]).
Proof.
  apply (maybe_idempotent (VStr "x")); [|reflexivity].
  intros n [= <-]. reflexivity.
Defined.

(** ** More on the layout pass *)

Lemma forallb_false_elem {A} (f : A → bool) (l : list A) :
  forallb f l = false → ∃ x, x ∈ l ∧ f x = false.
Proof.
  induction l as [|x l IH]; cbn; [discriminate|].
  destruct (f x) eqn:Hx; cbn.
  - intros (y & Hy & Hf)%IH. exists y. split; [by apply list_elem_of_further|done].
  - intros _. exists x. split; [apply list_elem_of_here|done].
Qed.

(** A tree that is not in order is not laid out. *)
Lemma appendToDOM_ill_shaped measure t :
  well_shaped t = false →
  ∀ opt_stats, ∃ e, appendToDOM measure t opt_stats = Throw e.
Proof.
  induction t as [s|op content|op content cs IH|] using value_ind';
    intros Ht opt_stats; try discriminate.
  - cbn in *. destruct (String.eqb op "html"); [discriminate|eauto].
  - destruct (String.eqb_spec op "html") as [->|Hop]; [discriminate|].
    rewrite well_shaped_node in Ht by done. rewrite appendToDOM_node by done.
    destruct (attach measure cs) as [kids|e] eqn:Hkids; cbn [mbind result_bind];
      [|eauto].
    apply andb_false_iff in Ht as [Ht|Ht].
    + exfalso. apply forallb_false_elem in Ht as (c & Hc & Hw).
      rewrite Forall_forall in IH.
      destruct (mapM_Throw (λ c, r ← appendToDOM measure c None; OK r.1) cs c Hc)
        as [e He].
      * destruct (IH c Hc Hw None) as [e ->]. eauto.
      * unfold attach in Hkids. congruence.
    + destruct (String.eqb_spec op "+") as [->|]; [|discriminate].
      apply negb_false_iff, bool_decide_eq_true_1 in Ht as ->.
      injection Hkids as <-. cbn. eauto.
  - cbn. eauto.
Qed.

(** X10.  [appendToDOM] returns exactly for the trees that are made of texts
    and of nodes with known operators, in which every node that is not a
    leaf has its array of children and every repetition has a child;
    whether it returns depends neither on what the browser measures nor on
    [opt_stats]. *)
Theorem appendToDOM_returns_iff measure (t : value) (opt_stats : option stats) :
  (∃ r, appendToDOM measure t opt_stats = OK r)
  ↔ well_shaped t = true ∧ has_unknown_op t = false.
Proof.
  split.
  - intros [r Hr]. split.
    + destruct (well_shaped t) eqn:Hw; [done|].
      destruct (appendToDOM_ill_shaped measure t Hw opt_stats) as [e He]. congruence.
    + destruct (has_unknown_op t) eqn:Hu; [|done].
      destruct (appendToDOM_unknown_throws measure t Hu opt_stats) as [e He]. congruence.
  - intros [Hw Hu]. pose proof (appendToDOM_outcome measure t Hw opt_stats) as H.
    unfold outcome in H. by rewrite Hu in H.
Qed.

Lemma appendToDOM_returns_iff_witness :
  ∃ r, appendToDOM sample_measure (Sequence [VStr "a"; Repeat [Leaf "b"]]) None = OK r.
Proof.
  apply appendToDOM_returns_iff. split; reflexivity.
Defined.

(** X11.  A repetition is laid out around its first child: the child is at
    [(16, 8)], the box is 32 wider and 16 higher than the child, the loop
    goes from 8 to the width less 8 above the middle, and the two rules of
    the forward path, each 16 long, lead to the child and away from it at
    the middle, for a box whose width and height are below 2^31.  Further
    children are attached but neither positioned nor counted.  Without a
    child [appendToDOM] throws a [TypeError]. *)
Theorem repeat_layout :
  (∀ measure content c cs k ks opt_stats,
     attach measure (c :: cs) = OK (k :: ks) →
     let w := offsetWidth measure k in
     let h := offsetHeight measure k in
     w + 32 < 2 ^ 31 → h + 16 < 2 ^ 31 →
     let centerY := (h + 16) `div` 2 in
     ∃ st',
       appendToDOM measure (VObj "+" content (Some (c :: cs))) opt_stats
       = OK (BoxDiv ((k, Some (16, 8)) :: map (λ e, (e, None)) ks)
               [Span 8 0 (w + 16) (centerY - 8) LoopTop;
                Span 8 (centerY - 12) 8 12 LoopLeft;
                Span (w + 16) (centerY - 12) 8 12 LoopRight;
                Span 0 (-5) (w + 32) 8 (Arrowhead "◀");
                Span 0 centerY 16 1 Rule;
                Span (w + 16) centerY 16 1 Rule]
               (w + 32) (h + 16), st'))
  ∧ (∀ measure content opt_stats,
       appendToDOM measure (VObj "+" content (Some [])) opt_stats
       = Throw TypeError).
Proof.
  split; [|reflexivity].
  intros measure content c cs k ks opt_stats Hkids w h _ Hh centerY.
  rewrite appendToDOM_node by discriminate. rewrite Hkids.
  cbn [mbind result_bind]. unfold layout.
  cbn [String.eqb Ascii.eqb Bool.eqb layout_many].
  fold w h. apply attach_sized in Hkids. apply Forall_cons in Hkids as [[Hw0 Hh0] _].
  fold w h in Hw0, Hh0. rewrite shr_1 by lia. fold centerY.
  unfold rightArrow. cbn [Z.eqb app].
  replace (w + 32 - 16) with (w + 16) by lia. eauto.
Qed.

Lemma repeat_layout_witness :
  ∃ st',
    appendToDOM sample_measure (Repeat [VStr "a"]) None
    = OK (BoxDiv [(LeafDiv "a" false, Some (16, 8))]
            [Span 8 0 26 2 LoopTop; Span 8 (-2) 8 12 LoopLeft;
             Span 26 (-2) 8 12 LoopRight; Span 0 (-5) 42 8 (Arrowhead "◀");
             Span 0 10 16 1 Rule; Span 26 10 16 1 Rule]
            42 21, st').
Proof.
  refine (proj1 repeat_layout sample_measure None (VStr "a") []
            (LeafDiv "a" false) [] None eq_refl _ _); vm_compute; reflexivity.
Defined.

(** The columns and the rules of the second loop of a Sequence, with the
    running width written as a sum. *)
Lemma each_cols_cols measure height children width :
  (each_cols measure height children width).1
  = (imap (λ j k,
             (width + sum_list ((λ k, offsetWidth measure k + 16) <$> take j children),
              shr (height - offsetHeight measure k) 1)) children,
     imap (λ j k,
             Span (width
                   + sum_list ((λ k, offsetWidth measure k + 16) <$> take j children)
                   + offsetWidth measure k)
                  (shr height 1) 16 1 Rule) children).
Proof.
  revert width. induction children as [|c cs IH]; intros width; [done|].
  cbn [each_cols]. specialize (IH (width + offsetWidth measure c + 16)).
  destruct (each_cols measure height cs _) as [[cols arrows] w']. cbn [fst] in *.
  injection IH as -> ->. rewrite !imap_cons. f_equal.
  - f_equal.
    + cbn. f_equal. lia.
    + apply imap_ext. intros j k _. unfold compose. cbn [take].
      rewrite fmap_cons, sum_list_cons. f_equal. lia.
  - unfold rightArrow. cbn [Z.eqb app]. f_equal.
    + cbn. f_equal. lia.
    + apply imap_ext. intros j k _. unfold compose. cbn [take].
      rewrite fmap_cons, sum_list_cons. f_equal. lia.
Qed.

Lemma each_height_spec measure children :
  0 ≤ each_height measure children
  ∧ Forall (λ c, offsetHeight measure c ≤ each_height measure children) children.
Proof.
  destruct (fold_max_spec (offsetHeight measure) children 0) as (H0 & Hall & _).
  by split.
Qed.

Lemma layout_each_positions measure kids :
  Forall (sized measure) kids →
  let div := layout_each measure kids in
  let W := offsetWidth measure div in
  let H := offsetHeight measure div in
  H < 2 ^ 31 →
  div = BoxDiv
          (imap (λ i k, (k, Some (item_left measure kids i, item_top measure H k))) kids)
          (Span 0 (H `div` 2) 16 1 Rule
           :: imap (λ i k, Span (item_left measure kids i + offsetWidth measure k)
                             (H `div` 2) 16 1 Rule) kids)
          W H.
Proof.
  intros Hkids. cbv zeta.
  destruct (layout_each_size measure kids) as [Hw Hh]. rewrite Hw, Hh.
  destruct (each_height_spec measure kids) as [HH0 Hall].
  pose proof (each_cols_cols measure (each_height measure kids) kids 16) as Hcols.
  pose proof (each_cols_width measure (each_height measure kids) kids 16) as Hwidth.
  unfold layout_each. set (H := each_height measure kids) in *.
  destruct (each_cols measure H kids 16) as [[cols arrows] w].
  cbn [fst snd] in *. injection Hcols as -> ->. intros HH.
  rewrite shr_1 by lia. unfold rightArrow at 1. cbn [Z.eqb app]. f_equal.
  - rewrite zip_with_imap. apply imap_ext. intros i k Hk.
    apply list_elem_of_lookup_2 in Hk. rewrite Forall_forall in Hall, Hkids.
    specialize (Hall k Hk). destruct (Hkids k Hk) as [_ Hk0].
    unfold item_left, item_top. by rewrite shr_1 by lia.
  - lia.
Qed.

(** X12.  In a Sequence whose children were attached as [kids] and whose
    width [W] and height [H] are below 2^31: child [i] is placed at the left that starts
    at 16 and advances by the width of each child plus 16, and at the top
    [(H - h_i) / 2]; the connectors are rules of length 16 at the height
    [H / 2], one from the left edge and one from the right edge of every
    child. *)
Theorem sequence_positions :
  ∀ measure content cs kids opt_stats,
    attach measure cs = OK kids →
    let div := layout_each measure kids in
    let W := offsetWidth measure div in
    let H := offsetHeight measure div in
    W < 2 ^ 31 → H < 2 ^ 31 →
    (∃ st', appendToDOM measure (VObj "." content (Some cs)) opt_stats
            = OK (div, st'))
    ∧ div = BoxDiv
              (imap (λ i k, (k, Some (item_left measure kids i,
                                      item_top measure H k))) kids)
              (Span 0 (H `div` 2) 16 1 Rule
               :: imap (λ i k, Span (item_left measure kids i + offsetWidth measure k)
                                 (H `div` 2) 16 1 Rule) kids)
              W H.
Proof.
  intros measure content cs kids opt_stats Hkids div W H _ HH. split.
  - rewrite appendToDOM_node by discriminate. rewrite Hkids.
    cbn [mbind result_bind]. unfold layout.
    cbn [String.eqb Ascii.eqb Bool.eqb]. eauto.
  - apply layout_each_positions; [|done]. by eapply attach_sized.
Qed.

Lemma sequence_positions_witness :
  (∃ st',
     appendToDOM sample_measure (Sequence [VStr "a"; VStr "b"; VStr "c"]) None
     = OK (layout_each sample_measure
             [LeafDiv "a" false; LeafDiv "b" false; LeafDiv "c" false], st'))
  ∧ layout_each sample_measure
      [LeafDiv "a" false; LeafDiv "b" false; LeafDiv "c" false]
    = BoxDiv [(LeafDiv "a" false, Some (16, 1)); (LeafDiv "b" false, Some (42, 0));
              (LeafDiv "c" false, Some (78, 1))]
        [Span 0 4 16 1 Rule; Span 26 4 16 1 Rule; Span 62 4 16 1 Rule;
         Span 108 4 16 1 Rule]
        124 8.
Proof.
  refine (sequence_positions sample_measure None [VStr "a"; VStr "b"; VStr "c"]
            [LeafDiv "a" false; LeafDiv "b" false; LeafDiv "c" false] None eq_refl _ _);
    vm_compute; reflexivity.
Defined.

Lemma sum_take_le (l : list Z) (i : nat) (x : Z) :
  Forall (λ y, 0 ≤ y) l → l !! i = Some x →
  0 ≤ sum_list (take i l) ∧ sum_list (take i l) + x ≤ sum_list l.
Proof.
  intros Hl Hx.
  assert (sum_list l = sum_list (take i l) + (x + 0) + sum_list (drop (S i) l)) as Hsplit.
  { rewrite <- (take_drop (S i) l) at 1.
    by rewrite (take_S_r _ _ _ Hx), !sum_list_app, sum_list_cons. }
  assert (0 ≤ sum_list (take i l)) by by apply sum_list_nonneg, Forall_take.
  assert (0 ≤ sum_list (drop (S i) l)) by by apply sum_list_nonneg, Forall_drop.
  lia.
Qed.

Lemma imap_fst {A B} (g : nat → A → B) (l : list A) :
  (imap (λ i x, (x, g i x)) l).*1 = l.
Proof.
  revert g. induction l as [|x l IH]; intros g; [done|].
  rewrite imap_cons, fmap_cons. cbn [fst]. f_equal. apply IH.
Qed.

Lemma sized_gaps measure (f : element → Z) kids :
  Forall (sized measure) kids → (∀ k, sized measure k → 0 ≤ f k) →
  Forall (λ y, 0 ≤ y) ((λ k, f k + 16) <$> kids).
Proof.
  intros Hkids Hf. apply Forall_fmap. eapply Forall_impl; [exact Hkids|].
  intros k Hk. unfold compose. specialize (Hf k Hk). cbn beta. lia.
Qed.

(** X13.  In a Sequence that was laid out, with a width and a height below
    2^31, every child lies inside the box with a margin of 16 to the left
    and to the right, and each child begins 16 to the right of the end of
    the child before it. *)
Theorem sequence_children_inside :
  ∀ measure content cs opt_stats placed spans W H st',
    appendToDOM measure (VObj "." content (Some cs)) opt_stats
    = OK (BoxDiv placed spans W H, st') →
    W < 2 ^ 31 → H < 2 ^ 31 →
    (∀ i k x y, placed !! i = Some (k, Some (x, y)) →
       16 ≤ x ∧ x + offsetWidth measure k + 16 ≤ W
       ∧ 0 ≤ y ∧ y + offsetHeight measure k ≤ H)
    ∧ (∀ i k x y k' x' y',
         placed !! i = Some (k, Some (x, y)) →
         placed !! S i = Some (k', Some (x', y')) →
         x' = x + offsetWidth measure k + 16).
Proof.
  intros measure content cs opt_stats placed spans W H st' Hrun _ HH.
  rewrite appendToDOM_node in Hrun by discriminate.
  destruct (attach measure cs) as [kids|] eqn:Hkids; [|discriminate].
  cbn [mbind result_bind] in Hrun. unfold layout in Hrun.
  cbn [String.eqb Ascii.eqb Bool.eqb] in Hrun. injection Hrun as Hdiv _.
  apply attach_sized in Hkids.
  pose proof (layout_each_positions measure kids Hkids) as Hpos. cbv zeta in Hpos.
  destruct (layout_each_size measure kids) as [Hw Hh].
  destruct (each_height_spec measure kids) as [_ Hall].
  rewrite Hdiv in Hpos, Hw, Hh. cbn [offsetWidth offsetHeight] in Hpos, Hw, Hh.
  injection (Hpos HH) as -> _. clear Hpos.
  assert (Forall (λ y, 0 ≤ y) ((λ k, offsetWidth measure k + 16) <$> kids)) as Hgaps.
  { apply (sized_gaps measure); [done|]. by intros k [? _]. }
  assert (∀ i k, kids !! i = Some k →
            16 ≤ item_left measure kids i
            ∧ item_left measure kids i + offsetWidth measure k + 16 ≤ W
            ∧ 0 ≤ item_top measure H k
            ∧ item_top measure H k + offsetHeight measure k ≤ H) as Hin.
  { intros i k Hk. unfold item_left, item_top. rewrite fmap_take.
    destruct (sum_take_le _ i (offsetWidth measure k + 16) Hgaps) as [H0 Hle].
    { by rewrite list_lookup_fmap, Hk. }
    rewrite sum_list_shift in Hle. apply list_elem_of_lookup_2 in Hk.
    rewrite Forall_forall in Hall, Hkids. specialize (Hall k Hk).
    destruct (Hkids k Hk) as [_ Hk0]. rewrite <- Hh in Hall.
    split_and!; try lia.
    - apply Z.div_pos; lia.
    - assert ((H - offsetHeight measure k) `div` 2 * 2 ≤ H - offsetHeight measure k)
        by (rewrite Z.mul_comm; apply Z.mul_div_le; lia). lia. }
  split.
  - intros i k x y Hp. rewrite list_lookup_imap in Hp.
    destruct (kids !! i) as [k0|] eqn:Hk; [|discriminate].
    injection Hp as -> <- <-. by apply Hin.
  - intros i k x y k' x' y' Hp Hp'. rewrite list_lookup_imap in Hp, Hp'.
    destruct (kids !! i) as [k0|] eqn:Hk; [|discriminate].
    destruct (kids !! S i) as [k1|] eqn:Hk'; [|discriminate].
    injection Hp as -> <- <-. injection Hp' as -> <- <-.
    unfold item_left. rewrite (take_S_r _ _ _ Hk), fmap_app, sum_list_app.
    cbn [fmap list_fmap]. rewrite sum_list_cons.
    change (sum_list []) with 0. lia.
Qed.

Lemma sequence_children_inside_witness :
  (∀ i k x y,
     [(LeafDiv "a" false, Some (16, 1)); (LeafDiv "b" false, Some (42, 0))] !! i
     = Some (k, Some (x, y)) →
     16 ≤ x ∧ x + offsetWidth sample_measure k + 16 ≤ 78
     ∧ 0 ≤ y ∧ y + offsetHeight sample_measure k ≤ 8)
  ∧ (∀ i k x y k' x' y',
       [(LeafDiv "a" false, Some (16, 1)); (LeafDiv "b" false, Some (42, 0))] !! i
       = Some (k, Some (x, y)) →
       [(LeafDiv "a" false, Some (16, 1)); (LeafDiv "b" false, Some (42, 0))] !! S i
       = Some (k', Some (x', y')) →
       x' = x + offsetWidth sample_measure k + 16).
Proof.
  refine (sequence_children_inside sample_measure None [VStr "a"; VStr "b"] None
            _ _ 78 8 None eq_refl _ _); reflexivity.
Defined.

(** X14.  In a Choice that was laid out, with a width and a height that fit
    in 32 bits, every option lies inside the box with a margin of at least
    16 to the left and to the right, and each option begins 16 below the
    end of the option before it. *)
Theorem choice_options_inside :
  ∀ measure content cs opt_stats placed spans W H st',
    appendToDOM measure (VObj "|" content (Some cs)) opt_stats
    = OK (BoxDiv placed spans W H, st') →
    W < 2 ^ 31 → H < 2 ^ 31 →
    (∀ i k x y, placed !! i = Some (k, Some (x, y)) →
       16 ≤ x ∧ x + offsetWidth measure k + 16 ≤ W
       ∧ 0 ≤ y ∧ y + offsetHeight measure k ≤ H)
    ∧ (∀ i k x y k' x' y',
         placed !! i = Some (k, Some (x, y)) →
         placed !! S i = Some (k', Some (x', y')) →
         y' = y + offsetHeight measure k + 16).
Proof.
  intros measure content cs opt_stats placed spans W H st' Hrun HW HH.
  rewrite appendToDOM_node in Hrun by discriminate.
  destruct (attach measure cs) as [kids|] eqn:Hkids; [|discriminate].
  cbn [mbind result_bind] in Hrun. unfold layout in Hrun.
  cbn [String.eqb Ascii.eqb Bool.eqb] in Hrun. injection Hrun as Hdiv _.
  apply attach_sized in Hkids.
  pose proof (layout_or_positions measure kids Hkids) as Hpos. cbv zeta in Hpos.
  destruct (layout_or_size measure kids) as [Hw Hh].
  destruct (or_width_spec measure kids) as (_ & Hall & _).
  rewrite Hdiv in Hpos, Hw, Hh. cbn [offsetWidth offsetHeight] in Hpos, Hw, Hh.
  injection (Hpos HW HH) as -> _. clear Hpos. rewrite <- Hw in Hall.
  assert (Forall (λ y, 0 ≤ y) ((λ k, offsetHeight measure k + 16) <$> kids)) as Hgaps.
  { apply (sized_gaps measure); [done|]. by intros k [_ ?]. }
  assert (∀ i k, kids !! i = Some k →
            16 ≤ option_left measure W k
            ∧ option_left measure W k + offsetWidth measure k + 16 ≤ W
            ∧ 0 ≤ option_top measure kids i
            ∧ option_top measure kids i + offsetHeight measure k ≤ H) as Hin.
  { intros i k Hk. unfold option_left, option_top. rewrite fmap_take.
    destruct (sum_take_le _ i (offsetHeight measure k + 16) Hgaps) as [H0 Hle].
    { by rewrite list_lookup_fmap, Hk. }
    rewrite sum_list_shift in Hle.
    assert (H = sum_list (offsetHeight measure <$> kids)
                + 16 * (Z.of_nat (length kids) - 1)) as HHeq.
    { destruct kids as [|k0 ks]; [done|].
      rewrite Hh, or_rows_height. cbn [length]. lia. }
    apply list_elem_of_lookup_2 in Hk.
    rewrite Forall_forall in Hall, Hkids. specialize (Hall k Hk).
    destruct (Hkids k Hk) as [Hk0 _].
    assert (32 ≤ W - offsetWidth measure k) as Hd by lia.
    assert (16 ≤ (W - offsetWidth measure k) `div` 2)
      by (apply (Z.div_le_lower_bound _ 2 16); lia).
    assert ((W - offsetWidth measure k) `div` 2 * 2 ≤ W - offsetWidth measure k)
      by (rewrite Z.mul_comm; apply Z.mul_div_le; lia).
    assert (W - offsetWidth measure k < ((W - offsetWidth measure k) `div` 2 + 1) * 2).
    { rewrite Z.mul_comm. rewrite Z.mul_add_distr_l, Z.mul_1_r.
      pose proof (Z.mod_pos_bound (W - offsetWidth measure k) 2 ltac:(lia)).
      pose proof (Z.div_mod (W - offsetWidth measure k) 2 ltac:(lia)). lia. }
    split_and!; lia. }
  split.
  - intros i k x y Hp. rewrite list_lookup_imap in Hp.
    destruct (kids !! i) as [k0|] eqn:Hk; [|discriminate].
    injection Hp as -> <- <-. by apply Hin.
  - intros i k x y k' x' y' Hp Hp'. rewrite list_lookup_imap in Hp, Hp'.
    destruct (kids !! i) as [k0|] eqn:Hk; [|discriminate].
    destruct (kids !! S i) as [k1|] eqn:Hk'; [|discriminate].
    injection Hp as -> <- <-. injection Hp' as -> <- <-.
    unfold option_top. rewrite (take_S_r _ _ _ Hk), fmap_app, sum_list_app.
    cbn [fmap list_fmap]. rewrite sum_list_cons.
    change (sum_list []) with 0. lia.
Qed.

Lemma choice_options_inside_witness :
  (∀ i k x y,
     [(LeafDiv "p" false, Some (21, 0)); (LeafDiv "q" false, Some (16, 26))] !! i
     = Some (k, Some (x, y)) →
     16 ≤ x ∧ x + offsetWidth sample_measure k + 16 ≤ 82
     ∧ 0 ≤ y ∧ y + offsetHeight sample_measure k ≤ 46)
  ∧ (∀ i k x y k' x' y',
       [(LeafDiv "p" false, Some (21, 0)); (LeafDiv "q" false, Some (16, 26))] !! i
       = Some (k, Some (x, y)) →
       [(LeafDiv "p" false, Some (21, 0)); (LeafDiv "q" false, Some (16, 26))] !! S i
       = Some (k', Some (x', y')) →
       y' = y + offsetHeight sample_measure k + 16).
Proof.
  refine (choice_options_inside sample_measure None [VStr "p"; VStr "q"] None
            _ _ 82 46 None eq_refl _ _); reflexivity.
Defined.

(** X15.  A node that is not a leaf and is laid out holds the [DIV]s of all
    its children, each once and in the order of the children; a Sequence
    and a Choice give every one of them a position, a repetition only the
    first. *)
Theorem children_attached_in_order :
  ∀ measure op content cs opt_stats div st',
    op ≠ "html" →
    appendToDOM measure (VObj op content (Some cs)) opt_stats = OK (div, st') →
    ∃ placed spans W H,
      div = BoxDiv placed spans W H
      ∧ attach measure cs = OK (placed.*1)
      ∧ (op ≠ "+" → Forall (λ p, is_Some p.2) placed)
      ∧ (op = "+" → ∃ k rest, placed = (k, Some (16, 8)) :: rest
                              ∧ Forall (λ p, p.2 = None) rest).
Proof.
  intros measure op content cs opt_stats div st' Hop Hrun.
  rewrite appendToDOM_node in Hrun by done.
  destruct (attach measure cs) as [kids|] eqn:Hkids; [|discriminate].
  cbn [mbind result_bind] in Hrun.
  destruct (layout measure op kids) as [d|] eqn:Hd; [|discriminate].
  injection Hrun as <- _. unfold layout in Hd.
  destruct (String.eqb_spec op "|") as [->|H1].
  { injection Hd as <-. unfold layout_or.
    pose proof (or_rows_rows measure (or_width measure kids) 0 kids 0) as Hrows.
    destruct (or_rows measure _ 0 kids 0) as [rows h]. cbn [fst] in Hrows.
    rewrite Hrows, zip_with_imap. eexists _, _, _, _.
    split_and!; [reflexivity| | |done].
    - by rewrite imap_fst.
    - intros _. apply Forall_forall. intros p Hp.
      apply list_elem_of_lookup in Hp as [i Hp]. rewrite list_lookup_imap in Hp.
      destruct (kids !! i); [|discriminate]. injection Hp as <-. by eexists. }
  destruct (String.eqb_spec op "+") as [->|H2].
  { destruct kids as [|k ks]; [discriminate|]. injection Hd as <-.
    eexists _, _, _, _. split_and!; [reflexivity| |done|].
    - rewrite fmap_cons. cbn [fst]. do 2 f_equal.
      clear. induction ks as [|e ks IH]; [done|]. cbn. by rewrite <- IH.
    - intros _. eexists _, _. split; [reflexivity|].
      clear. induction ks as [|e ks IH]; constructor; [done|apply IH]. }
  destruct (String.eqb_spec op ".") as [->|H3]; [|discriminate].
  injection Hd as <-. unfold layout_each.
  pose proof (each_cols_cols measure (each_height measure kids) kids 16) as Hcols.
  destruct (each_cols measure _ kids 16) as [[cols arrows] w]. cbn [fst] in Hcols.
  injection Hcols as -> ->. rewrite zip_with_imap. eexists _, _, _, _.
  split_and!; [reflexivity| | |done].
  - by rewrite imap_fst.
  - intros _. apply Forall_forall. intros p Hp.
    apply list_elem_of_lookup in Hp as [i Hp]. rewrite list_lookup_imap in Hp.
    destruct (kids !! i); [|discriminate]. injection Hp as <-. by eexists.
Qed.

Lemma children_attached_in_order_witness :
  ∃ placed spans W H,
    BoxDiv [(LeafDiv "a" false, Some (16, 8)); (LeafDiv "b" false, None)]
      ([Span 8 0 26 2 LoopTop; Span 8 (-2) 8 12 LoopLeft;
        Span 26 (-2) 8 12 LoopRight; Span 0 (-5) 42 8 (Arrowhead "◀")]
       ++ [Span 0 10 16 1 Rule] ++ [Span 26 10 16 1 Rule]) 42 21
    = BoxDiv placed spans W H
    ∧ attach sample_measure [VStr "a"; VStr "b"] = OK (placed.*1)
    ∧ ("+" ≠ "+" → Forall (λ p, is_Some p.2) placed)
    ∧ ("+" = "+" → ∃ k rest, placed = (k, Some (16, 8)) :: rest
                             ∧ Forall (λ p, p.2 = None) rest).
Proof.
  refine (children_attached_in_order sample_measure "+" None [VStr "a"; VStr "b"]
            None _ None _ eq_refl).
  discriminate.
Defined.

(** X16.  The two spans of an arrow that changes height lie side by side
    and take the whole width of the arrow; they meet at the junction that
    is given, and without a given junction in the middle.  Downwards the
    spans lie one below the other and take the whole height; upwards each
    has the height of the half rounded up, so that for an odd height they
    overlap by one. *)
Theorem rightArrow_spans :
  ∀ x width y height junctionX,
    height ≠ 0 → - (2 ^ 31 - 1) < height < 2 ^ 31 - 1 →
    ∃ l r,
      rightArrow x width y height junctionX = [l; r]
      ∧ span_left l = x
      ∧ span_left r = span_left l + span_width l
      ∧ span_width l + span_width r = width
      ∧ (∀ j, junctionX = Some j → span_left r = j)
      ∧ (junctionX = None → 0 ≤ width < 2 ^ 31 →
           span_left r = x + width `div` 2)
      ∧ (0 < height →
           span_height l = (height + 1) `div` 2
           ∧ span_top r = span_top l + span_height l
           ∧ span_height l + span_height r = height)
      ∧ (height < 0 →
           span_height l = (- height + 1) `div` 2
           ∧ span_height r = span_height l
           ∧ span_top l = span_top r + span_height r
                          - (if Z.odd height then 1 else 0)).
Proof.
  intros x width y height junctionX Hh Hr. unfold rightArrow.
  destruct (Z.eqb_spec height 0) as [|_]; [done|].
  assert (- 2 ^ 31 ≤ Z.abs height + 1 < 2 ^ 31) as Habs
    by (destruct (Z.abs_spec height) as [[? ->]|[? ->]]; lia).
  rewrite (shr_1 (Z.abs height + 1)) by done. clear Habs.
  eexists _, _. split; [reflexivity|].
  destruct (Z.gtb_spec height 0) as [Hpos|Hneg]; cbn [span_left span_top span_width span_height].
  - split_and!; try lia.
    + by intros j ->.
    + intros -> Hw. by rewrite shr_1 by lia.
    + intros _. rewrite Z.abs_eq by lia. split_and!; lia.
  - split_and!; try lia.
    + by intros j ->.
    + intros -> Hw. by rewrite shr_1 by lia.
    + intros Hlt. rewrite Z.abs_neq by lia. split_and!; try done.
      rewrite (Zodd_mod height), Z.eqb_compare.
      pose proof (Z.div_mod (- height + 1) 2 ltac:(lia)) as Hdm.
      pose proof (Z.mod_pos_bound (- height + 1) 2 ltac:(lia)) as Hb.
      pose proof (Z.div_mod height 2 ltac:(lia)) as Hdm'.
      pose proof (Z.mod_pos_bound height 2 ltac:(lia)) as Hb'.
      destruct (Z.compare_spec (height mod 2) 1); lia.
Qed.

Lemma rightArrow_spans_witness :
  ∃ l r,
    rightArrow 0 21 14 (-9) (Some 8) = [l; r]
    ∧ span_left l = 0
    ∧ span_left r = span_left l + span_width l
    ∧ span_width l + span_width r = 21
    ∧ (∀ j, Some 8 = Some j → span_left r = j)
    ∧ (Some 8 = None → 0 ≤ 21 < 2 ^ 31 → span_left r = 0 + 21 `div` 2)
    ∧ (0 < -9 →
         span_height l = (-9 + 1) `div` 2
         ∧ span_top r = span_top l + span_height l
         ∧ span_height l + span_height r = -9)
    ∧ (-9 < 0 →
         span_height l = (- -9 + 1) `div` 2
         ∧ span_height r = span_height l
         ∧ span_top l = span_top r + span_height r - (if Z.odd (-9) then 1 else 0)).
Proof.
  apply (rightArrow_spans 0 21 14 (-9) (Some 8)); [discriminate | split; reflexivity].
Defined.

Lemma mapM_map_ext {A B} (f : A → result B) (g : A → A) (l : list A) :
  Forall (λ a, f (g a) = f a) l → mapM f (map g l) = mapM f l.
Proof.
  induction 1 as [|a l Ha _ IH]; [done|].
  cbn [map mapM]. by rewrite Ha, IH.
Qed.

(** X17.  The layout pass cannot tell a text from its leaf, at any depth:
    a tree and the tree with all its texts converted by [toNode] give the
    same [DIV], the same statistics and the same exceptions. *)
Theorem appendToDOM_leafify measure (t : value) (opt_stats : option stats) :
  appendToDOM measure (leafify t) opt_stats = appendToDOM measure t opt_stats.
Proof.
  revert opt_stats.
  induction t as [s|op content|op content cs IH|] using value_ind';
    intros opt_stats; try reflexivity.
  cbn [leafify]. destruct (String.eqb_spec op "html") as [->|Hop]; [reflexivity|].
  rewrite !appendToDOM_node by done. unfold attach.
  rewrite mapM_map_ext; [reflexivity|].
  eapply Forall_impl; [exact IH|]. intros c Hc. cbn beta. by rewrite Hc.
Qed.
